(** * Cuckoo 3 command line front end ([cuckoo/main.py])

    A shallow embedding of the click commands of [core/cuckoo/main.py]
    ([main], [createcwd], [machine add], [submit], [importmode]) and of the
    two submission generators [_submit_files] and [_submit_urls].

    Python strings are [string]s whose characters are code points below 256.
    Commands run in a small state-and-exception monad: the state holds the
    opaque state of the collaborators that live outside this module, the
    registry of shutdown actions, and a chronological trace of every
    collaborator call, every printed line and every value a generator
    yields.  Collaborators are the fields of one record [Env]. *)

From Stdlib Require Import String Ascii List ZArith Bool Lia Permutation.
From Stdlib Require Import DecimalString.
Import ListNotations.
Local Open Scope string_scope.
Local Open Scope list_scope.

(** ** Python string operations used by the commands *)

(** [str.isspace] on one character, for code points below 256: the ASCII
    white space of CPython (TAB..CR, FS..US, space) plus NEL and NBSP. *)
Definition is_space (c : ascii) : bool :=
  let n := nat_of_ascii c in
  (((9 <=? n) && (n <=? 13)) || ((28 <=? n) && (n <=? 32))
   || (n =? 133) || (n =? 160))%nat.

(** [s.lstrip()] *)
Fixpoint lstrip (s : string) : string :=
  match s with
  | EmptyString => EmptyString
  | String c r => if is_space c then lstrip r else s
  end.

(** [s.rstrip()] *)
Fixpoint rstrip (s : string) : string :=
  match s with
  | EmptyString => EmptyString
  | String c r =>
      match rstrip r with
      | EmptyString => if is_space c then EmptyString else String c EmptyString
      | r' => String c r'
      end
  end.

(** [s.strip()] *)
Definition strip (s : string) : string := rstrip (lstrip s).

(** [s.split(sep)] for a one character separator: never empty, a piece per
    separator plus one. *)
Fixpoint split (sep : ascii) (s : string) : list string :=
  match s with
  | EmptyString => [EmptyString]
  | String c r =>
      if Ascii.eqb c sep then EmptyString :: split sep r
      else match split sep r with
           | [] => [String c EmptyString]
           | p :: ps => String c p :: ps
           end
  end.

(** [s.partition(sep)] restricted to the found case: the text before the
    first separator and the text after it. *)
Fixpoint partition_first (sep : ascii) (s : string) : option (string * string) :=
  match s with
  | EmptyString => None
  | String c r =>
      if Ascii.eqb c sep then Some (EmptyString, r)
      else match partition_first sep r with
           | Some (a, b) => Some (String c a, b)
           | None => None
           end
  end.

(** [s.split(sep, 1)]: at most one split, at the first separator. *)
Definition split1 (sep : ascii) (s : string) : list string :=
  match partition_first sep s with
  | Some (a, b) => [a; b]
  | None => [s]
  end.

(** [sep.join(pieces)] *)
Fixpoint join (sep : string) (pieces : list string) : string :=
  match pieces with
  | [] => EmptyString
  | [p] => p
  | p :: ps => p ++ sep ++ join sep ps
  end.

(** [c in s] for a character. *)
Fixpoint contains (c : ascii) (s : string) : bool :=
  match s with
  | EmptyString => false
  | String d r => Ascii.eqb d c || contains c r
  end.

(** [bool(s)] for a string: non-empty. *)
Definition nonempty (s : string) : bool :=
  match s with EmptyString => false | _ => true end.

(** [os.path.basename]: the text after the last slash. *)
Definition basename (p : string) : string := last (split "/" p) EmptyString.

(** ** Data *)

Definition analysis_id := string.

(** Modelled from the spec: the platform entries and the [Settings] value of
    [cuckoo.common.submit] (the class is not part of this module). *)
Record Platform := mkPlatform {
  platform : string;
  os_version : option string
}.

Record Settings := mkSettings {
  timeout : Z;
  priority : Z;
  manual : bool;
  platforms : list Platform
}.

(** The third component of a yielded tuple: the literal message of
    [_submit_files] or the caught [SubmissionError]. *)
Inductive error_value :=
| ErrStr (s : string)
| ErrSubmission (msg : string).

(** The tuples [(analysis_id, target, error)] the generators yield. *)
Record SubmissionResult := mkResult {
  res_analysis_id : option analysis_id;
  res_target : string;
  res_error : option error_value
}.

(** [str(error)] inside an f-string. *)
Definition str_error (e : error_value) : string :=
  match e with ErrStr s => s | ErrSubmission msg => msg end.

(** [if error:] -- [None] and the empty string are false, an exception
    instance is true. *)
Definition truthy (e : option error_value) : bool :=
  match e with
  | None => false
  | Some (ErrStr s) => nonempty s
  | Some (ErrSubmission _) => true
  end.

(** The exceptions: the classes [main.py] names in an [except] clause or
    raises through [exit_error], a missing context attribute, and
    [Unhandled] for any class no clause of [main.py] names. *)
Inductive exn :=
| SubmissionError (msg : string)
| StartupError (msg : string)
| InvalidCWDError (msg : string)
| AttributeError (name : string)
| SystemExit (code : Z)
| Unhandled (msg : string).

(** Shutdown callables: the local [_stopmsg] closures print a line; the
    subsystems register callables of their own, known here by name only. *)
Inductive ShutdownAction :=
| StopMsg (text : string)
| SubsystemStop (name : string).

(** The keyword arguments of [add_machine]. *)
Record MachineArgs := mkMachineArgs {
  m_machinery : string;
  m_name : string;
  m_label : string;
  m_ip : string;
  m_platform : string;
  m_os_version : option string;
  m_snapshot : option string;
  m_interface : option string;
  m_tags : list string
}.

Inductive RunMode := Standalone | Controller | ImportMode.

Inductive event :=
| EvExists (path : string)
| EvIsDir (path : string)
| EvEnumerate (path : string)
| EvSubmitFile (path : string) (settings : Settings) (file_name : string)
| EvSubmitUrl (url : string) (settings : Settings)
| EvNotify
| EvSetMachinesdump (path : string)
| EvYield (r : SubmissionResult)
| EvPrint (msg : string)
| EvPrintInfo (msg : string)
| EvPrintError (msg : string)
| EvPrintWarning (msg : string)
| EvCwdExists (path : string)
| EvCwdIsValid (path : string)
| EvCwdSet (path : string)
| EvCwdCreate (path : string)
| EvCwdUpdateMissing
| EvCreateConfigurations
| EvAddMachine (args : MachineArgs)
| EvStart (mode : RunMode) (loglevel : Z)
| EvShutdownCall (a : ShutdownAction).

(** What a blocking subsystem entry point did: the shutdown actions it
    registered, whether it raised [StartupError], and the state it left. *)
Record SubsystemRun (W : Type) := mkRun {
  run_registered : list (ShutdownAction * Z);
  run_failure : option string;
  run_world : W
}.
Arguments mkRun {W}.
Arguments run_registered {W}.
Arguments run_failure {W}.
Arguments run_world {W}.

(** ** Collaborators

    Everything [main.py] imports from the rest of the code base.  A call
    that can raise returns [Some msg] (or [inr msg]) for the exception class
    its caller handles. *)
Record Env := mkEnv {
  World : Type;
  os_path_exists : World -> string -> bool;
  os_path_isdir : World -> string -> bool;
  enumerate_files : World -> string -> list string;
  cuckoocwd_DEFAULT : string;
  cuckoocwd_exists : World -> string -> bool;
  cuckoocwd_is_valid : World -> string -> bool;
  cuckoocwd_set : string -> World -> option string * World;
  cuckoocwd_create : string -> World -> option string * World;
  cuckoocwd_update_missing : World -> option string * World;
  create_configurations : World -> option string * World;
  Paths_monitor : World -> string;
  Paths_machinestates : World -> string;
  VERBOSE : Z;
  submit_file : string -> Settings -> string -> World -> (analysis_id + string) * World;
  submit_url : string -> Settings -> World -> (analysis_id + string) * World;
  submit_notify : World -> option string * World;
  set_machinesdump_path : string -> World -> option string * World;
  settings_check : Settings -> option string;
  add_machine : MachineArgs -> World -> option string * World;
  start_cuckoo : Z -> World -> SubsystemRun World;
  start_cuckoo_controller : Z -> World -> SubsystemRun World;
  start_importmode : Z -> World -> SubsystemRun World
}.

(** ** The state-and-exception monad *)

Record State (W : Type) := mkState {
  world : W;
  registry : list (ShutdownAction * Z);
  trace : list event
}.
Arguments mkState {W}.
Arguments world {W}.
Arguments registry {W}.
Arguments trace {W}.

Inductive outcome (A : Type) :=
| Normal (a : A)
| Raised (e : exn).
Arguments Normal {A}.
Arguments Raised {A}.

Definition M (W A : Type) : Type := State W -> outcome A * State W.

Definition ret {W A} (a : A) : M W A := fun s => (Normal a, s).

Definition bind {W A B} (m : M W A) (k : A -> M W B) : M W B :=
  fun s =>
    match m s with
    | (Normal a, s') => k a s'
    | (Raised e, s') => (Raised e, s')
    end.

Definition raise {W A} (e : exn) : M W A := fun s => (Raised e, s).

Notation "x <- m ;; k" := (bind m (fun x => k))
  (at level 61, m at next level, right associativity).
Notation "m ;; k" := (bind m (fun _ => k))
  (at level 61, right associativity).

(** [try: body / except <class> as e: handler]; the handler is [None] on
    the classes the clause does not name. *)
Definition try_except {W A} (body : M W A) (handler : exn -> option (M W A))
  : M W A :=
  fun s =>
    match body s with
    | (Normal a, s') => (Normal a, s')
    | (Raised e, s') =>
        match handler e with
        | Some h => h s'
        | None => (Raised e, s')
        end
    end.

(** [try: body / finally: final] *)
Definition try_finally {W A} (body : M W A) (final : M W unit) : M W A :=
  fun s =>
    match body s with
    | (o, s') =>
        match final s' with
        | (Normal _, s'') => (o, s'')
        | (Raised e, s'') => (Raised e, s'')
        end
    end.

Definition log {W} (ev : event) : M W unit :=
  fun s => (Normal tt, mkState (world s) (registry s) (trace s ++ [ev])).

(** A read-only question to a collaborator. *)
Definition query {W A} (ev : event) (f : W -> A) : M W A :=
  fun s => (Normal (f (world s)),
            mkState (world s) (registry s) (trace s ++ [ev])).

(** The same, for a value that is only computed (a path under the working
    directory), without a trace entry. *)
Definition peek {W A} (f : W -> A) : M W A :=
  fun s => (Normal (f (world s)), s).

(** A collaborator call that returns a value or raises [cls msg]. *)
Definition call {W A} (ev : event) (cls : string -> exn)
    (f : W -> (A + string) * W) : M W A :=
  fun s =>
    let '(r, w') := f (world s) in
    let s' := mkState w' (registry s) (trace s ++ [ev]) in
    match r with
    | inl a => (Normal a, s')
    | inr msg => (Raised (cls msg), s')
    end.

(** A collaborator call without a result that may raise [cls msg]. *)
Definition call_ {W} (ev : event) (cls : string -> exn)
    (f : W -> option string * W) : M W unit :=
  call ev cls (fun w => let '(r, w') := f w in
                        (match r with None => inl tt | Some msg => inr msg end, w')).

Definition on_SubmissionError {W A} (h : string -> M W A) (e : exn)
  : option (M W A) :=
  match e with SubmissionError msg => Some (h msg) | _ => None end.

Definition on_StartupError {W A} (h : string -> M W A) (e : exn)
  : option (M W A) :=
  match e with StartupError msg => Some (h msg) | _ => None end.

Definition on_InvalidCWDError {W A} (h : string -> M W A) (e : exn)
  : option (M W A) :=
  match e with InvalidCWDError msg => Some (h msg) | _ => None end.

(** ** [cuckoo.common.log] *)

(** Modelled from the spec: [print_info], [print_error] and [print_warning]
    of [cuckoo.common.log] each put one line on the terminal. *)
Definition print_info {W} (msg : string) : M W unit := log (EvPrintInfo msg).
Definition print_error {W} (msg : string) : M W unit := log (EvPrintError msg).
Definition print_warning {W} (msg : string) : M W unit := log (EvPrintWarning msg).

(** Modelled from the spec: [exit_error] of [cuckoo.common.log] prints one
    message and terminates the process with a non-zero status. *)
Definition exit_error {W A} (msg : string) : M W A :=
  print_error msg ;; raise (SystemExit 1).

(** ** [cuckoo.common.shutdown] *)

(** Modelled from the spec: the registry of ordered shutdown actions of
    [cuckoo.common.shutdown].  Registering appends an entry; draining runs
    every entry once, by ascending order, ties in registration order. *)
Definition register_shutdown {W} (a : ShutdownAction) (order : Z) : M W unit :=
  fun s => (Normal tt, mkState (world s) (registry s ++ [(a, order)]) (trace s)).

(** Modelled from the spec: the order in which the registry is drained
    (a stable insertion sort on the [order] of the entries). *)
Fixpoint insert_by_order (x : ShutdownAction * Z)
    (l : list (ShutdownAction * Z)) : list (ShutdownAction * Z) :=
  match l with
  | [] => [x]
  | y :: l' => if (snd x <=? snd y)%Z then x :: l else y :: insert_by_order x l'
  end.

Definition sort_by_order (l : list (ShutdownAction * Z))
  : list (ShutdownAction * Z) := fold_right insert_by_order [] l.

(** Modelled from the spec: running one shutdown callable; the stop
    messages of [main.py] print their text. *)
Definition run_action {W} (a : ShutdownAction) : M W unit :=
  log (EvShutdownCall a) ;;
  match a with
  | StopMsg text => log (EvPrint text)
  | SubsystemStop _ => ret tt
  end.

Fixpoint run_actions {W} (l : list ShutdownAction) : M W unit :=
  match l with
  | [] => ret tt
  | a :: l' => run_action a ;; run_actions l'
  end.

(** Modelled from the spec: [call_registered_shutdowns] of
    [cuckoo.common.shutdown] drains the registry: every registered action
    runs once, in order. *)
Definition call_registered_shutdowns {W} : M W unit :=
  fun s =>
    run_actions (map fst (sort_by_order (registry s)))
                (mkState (world s) [] (trace s)).

(** ** [cuckoo.common.submit]: the settings helper *)

(** Modelled from the spec: the builder behind [settings_maker.new_settings]:
    setters store a field, [add_platform] appends one entry, and
    [make_settings] checks that the fields are present and the timeout
    positive, naming the first invalid field. *)
Record SettingsHelper := mkHelper {
  h_timeout : option Z;
  h_priority : option Z;
  h_manual : option bool;
  h_platforms : list Platform
}.

(** Modelled from the spec: the setters of the helper. *)
Definition new_settings : SettingsHelper := mkHelper None None None [].

Definition set_timeout (t : Z) (h : SettingsHelper) : SettingsHelper :=
  mkHelper (Some t) (h_priority h) (h_manual h) (h_platforms h).

Definition set_priority (p : Z) (h : SettingsHelper) : SettingsHelper :=
  mkHelper (h_timeout h) (Some p) (h_manual h) (h_platforms h).

Definition set_manual (m : bool) (h : SettingsHelper) : SettingsHelper :=
  mkHelper (h_timeout h) (h_priority h) (Some m) (h_platforms h).

(** Modelled from the spec: [add_platform] appends one entry, without
    looking for duplicates. *)
Definition add_platform (p : string) (v : option string) (h : SettingsHelper)
  : SettingsHelper :=
  mkHelper (h_timeout h) (h_priority h) (h_manual h)
           (h_platforms h ++ [mkPlatform p v]).

(** Modelled from the spec: [make_settings] validates presence and ranges
    ([timeout > 0]) and names the first invalid field; [check] stands for
    the validation the spec does not detail. *)
Definition make_settings (check : Settings -> option string)
    (h : SettingsHelper) : Settings + string :=
  match h_timeout h, h_priority h, h_manual h with
  | None, _, _ => inr "timeout"
  | Some t, op, om =>
      if (t <=? 0)%Z then inr "timeout"
      else match op, om with
           | None, _ => inr "priority"
           | Some _, None => inr "manual"
           | Some p, Some m =>
               let s := mkSettings t p m (h_platforms h) in
               match check s with
               | Some field => inr field
               | None => inl s
               end
           end
  end.

(** The click context attributes [main] sets for its subcommands. *)
Record Ctx := mkCtx {
  cwd_path : option string;
  loglevel : option Z;
  invoked_subcommand : option string
}.

(** [logging.DEBUG], [logging.INFO], [logging.WARNING] *)
Definition logging_DEBUG : Z := 10.
Definition logging_INFO : Z := 20.
Definition logging_WARNING : Z := 30.

(** The consumer side of a generator: the generator body takes what happens
    at each [yield] as an argument. *)
Definition Generator (W : Type) : Type := (SubmissionResult -> M W unit) -> M W unit.

(** [for r in g: body(r)]: each yield is recorded, then the body runs. *)
Definition for_in {W} (g : Generator W) (body : SubmissionResult -> M W unit)
  : M W unit :=
  g (fun r => log (EvYield r) ;; body r).

(** [list(g)] as seen on the trace. *)
Definition drain {W} (g : Generator W) : M W unit := for_in g (fun _ => ret tt).

(** The values yielded along a trace. *)
Fixpoint yields (t : list event) : list SubmissionResult :=
  match t with
  | [] => []
  | EvYield r :: t' => r :: yields t'
  | _ :: t' => yields t'
  end.

(** ** The commands *)

Section Commands.

Variable E : Env.

(** Commands over the collaborators' state. *)
Definition Cmd (A : Type) : Type := M (World E) A.

(** *** The submission generators *)

(** First loop of [_submit_files]: the existence check, the yield for a
    missing path, and -- with no [continue] after the yield -- the
    enumeration of every path, missing or not. *)
Fixpoint _submit_files_resolve (targets files : list string)
    (yield_ : SubmissionResult -> Cmd unit) : Cmd (list string) :=
  match targets with
  | [] => ret files
  | path :: targets' =>
      found <- query (EvExists path) (fun w => os_path_exists E w path) ;;
      (if negb found
       then yield_ (mkResult None path (Some (ErrStr "No such file or directory")))
       else ret tt) ;;
      more <- query (EvEnumerate path) (fun w => enumerate_files E w path) ;;
      _submit_files_resolve targets' (files ++ more) yield_
  end.

(** Second loop of [_submit_files].  The [yield]s are outside the protected
    call: an exception of the consumer is not raised inside the generator. *)
Fixpoint _submit_files_submit (settings : Settings) (files : list string)
    (yield_ : SubmissionResult -> Cmd unit) : Cmd unit :=
  match files with
  | [] => ret tt
  | path :: files' =>
      r <- try_except
             (analysis_id <- call (EvSubmitFile path settings (basename path))
                                  SubmissionError
                                  (submit_file E path settings (basename path)) ;;
              ret (inl analysis_id))
             (on_SubmissionError (fun e => ret (inr e))) ;;
      match r with
      | inl analysis_id => yield_ (mkResult (Some analysis_id) path None)
      | inr e => yield_ (mkResult None path (Some (ErrSubmission e)))
      end ;;
      _submit_files_submit settings files' yield_
  end.

Definition _submit_files (settings : Settings) (targets : list string)
  : Generator (World E) :=
  fun yield_ =>
    files <- _submit_files_resolve targets [] yield_ ;;
    _submit_files_submit settings files yield_.

Fixpoint _submit_urls (settings : Settings) (targets : list string)
    (yield_ : SubmissionResult -> Cmd unit) : Cmd unit :=
  match targets with
  | [] => ret tt
  | url :: targets' =>
      r <- try_except
             (analysis_id <- call (EvSubmitUrl url settings) SubmissionError
                                  (submit_url E url settings) ;;
              ret (inl analysis_id))
             (on_SubmissionError (fun e => ret (inr e))) ;;
      match r with
      | inl analysis_id => yield_ (mkResult (Some analysis_id) url None)
      | inr e => yield_ (mkResult None url (Some (ErrSubmission e)))
      end ;;
      _submit_urls settings targets' yield_
  end.

(** *** [submit] *)

(** One [--platform] token: [p_v.split(",", 1)] and the two [add_platform]
    calls of the loop body. *)
Definition add_platform_token (h : SettingsHelper) (p_v : string)
  : SettingsHelper :=
  let platform_version := split1 "," p_v in
  if (length platform_version =? 2)%nat
  then add_platform (nth 0 platform_version EmptyString)
                    (Some (nth 1 platform_version EmptyString)) h
  else add_platform (nth 0 platform_version EmptyString) None h.

(** The helper as it stands just before [make_settings]. *)
Definition submission_helper (platform : list string) (timeout priority : Z)
  : SettingsHelper :=
  let s_helper := new_settings in
  let s_helper := set_timeout timeout s_helper in
  let s_helper := set_priority priority s_helper in
  let s_helper := set_manual false s_helper in
  fold_left add_platform_token platform s_helper.

(** The second [try] block of [submission]. *)
Definition submission_settings (platform : list string) (timeout priority : Z)
  : Cmd Settings :=
  try_except
    (match make_settings (settings_check E)
                         (submission_helper platform timeout priority) with
     | inl settings => ret settings
     | inr msg => raise (SubmissionError msg)
     end)
    (on_SubmissionError (fun e => exit_error ("Submission failed: " ++ e))).

Definition str_id (a : option analysis_id) : string :=
  match a with Some i => i | None => "None" end.

Definition str_opt_error (e : option error_value) : string :=
  match e with Some v => str_error v | None => "None" end.

(** The body of the [for] loop of [submission]. *)
Definition report (kind : string) (r : SubmissionResult) : Cmd unit :=
  if truthy (res_error r)
  then print_error ("Failed to submit " ++ kind ++ ": " ++ res_target r ++ ". "
                    ++ str_opt_error (res_error r))
  else print_info ("Submitted " ++ kind ++ ": " ++ str_id (res_analysis_id r)
                   ++ " -> " ++ res_target r).

(** The [finally] clause of [submission]. *)
Definition notify_quietly : Cmd unit :=
  try_except (call_ EvNotify SubmissionError (submit_notify E))
             (on_SubmissionError (fun e => print_warning e)).

(** The last [try] / [finally] of [submission]. *)
Definition submission_dispatch (settings : Settings) (url : bool)
    (target : list string) : Cmd unit :=
  let '(submitter, kind) :=
    if url then (_submit_urls, "URL") else (_submit_files, "file") in
  try_finally (for_in (submitter settings target) (report kind))
              notify_quietly.

Definition submission (target : list string) (url : bool)
    (platform : list string) (timeout priority : Z) : Cmd unit :=
  try_except
    (path <- peek (fun w => Paths_machinestates E w) ;;
     call_ (EvSetMachinesdump path) SubmissionError
           (set_machinesdump_path E path))
    (on_SubmissionError (fun e => exit_error ("Submission failed: " ++ e))) ;;
  settings <- submission_settings platform timeout priority ;;
  submission_dispatch settings url target.

(** *** [main], [createcwd], [machine add], [importmode] *)

Definition opt_eqb (a : option string) (b : string) : bool :=
  match a with Some x => String.eqb x b | None => false end.

(** [if x:] for an optional string attribute. *)
Definition truthy_str (a : option string) : bool :=
  match a with Some x => nonempty x | None => false end.

(** A blocking subsystem entry point ([start_cuckoo],
    [start_cuckoo_controller], [start_importmode]): it may register shutdown
    actions of its own and returns, or raises [StartupError]. *)
Definition start_subsystem (mode : RunMode)
    (entry : Z -> World E -> SubsystemRun (World E)) (level : Z) : Cmd unit :=
  fun s =>
    let r := entry level (world s) in
    let s' := mkState (run_world r) (registry s ++ run_registered r)
                      (trace s ++ [EvStart mode level]) in
    match run_failure r with
    | None => (Normal tt, s')
    | Some msg => (Raised (StartupError msg), s')
    end.

(** The tail of [main] taken when no subcommand was invoked. *)
Definition main_run (distributed : bool) (level : Z) : Cmd unit :=
  monitor <- peek (fun w => Paths_monitor E w) ;;
  present <- query (EvExists monitor) (fun w => os_path_exists E w monitor) ;;
  (if negb present
   then exit_error ("No monitor and stager binaries are present yet. "
                    ++ "Use 'cuckoo getmonitor <zip path>' to unpack and use monitor "
                    ++ "and stagers from a Cuckoo monitor zip.")
   else ret tt) ;;
  let start_cuckoo_ :=
    if distributed
    then start_subsystem Controller (start_cuckoo_controller E)
    else start_subsystem Standalone (start_cuckoo E) in
  register_shutdown (StopMsg "Stopping Cuckoo..") 1 ;;
  try_finally
    (try_except (start_cuckoo_ level)
       (on_StartupError
          (fun e => exit_error ("Failure during Cuckoo startup: " ++ e))))
    call_registered_shutdowns.

(** [main] from [cuckoocwd.set] on. *)
Definition main_configure (ctx : Ctx) (cwd : string)
    (distributed debug quiet verbose : bool) : Cmd Ctx :=
  try_except (call_ (EvCwdSet cwd) InvalidCWDError (cuckoocwd_set E cwd))
    (on_InvalidCWDError
       (fun e => exit_error ("Invalid Cuckoo working directory: " ++ e))) ;;
  let level :=
    if verbose then VERBOSE E
    else if debug then logging_DEBUG
    else if quiet then logging_WARNING
    else logging_INFO in
  let ctx := mkCtx (cwd_path ctx) (Some level) (invoked_subcommand ctx) in
  if truthy_str (invoked_subcommand ctx) then ret ctx
  else main_run distributed level ;; ret ctx.

Definition main (ctx : Ctx) (cwd : option string)
    (distributed debug quiet verbose : bool) : Cmd Ctx :=
  let cwd := match cwd with
             | Some c => if nonempty c then c else cuckoocwd_DEFAULT E
             | None => cuckoocwd_DEFAULT E
             end in
  let ctx := mkCtx (Some cwd) (loglevel ctx) (invoked_subcommand ctx) in
  found <- query (EvCwdExists cwd) (fun w => cuckoocwd_exists E w cwd) ;;
  if negb found then
    if opt_eqb (invoked_subcommand ctx) "createcwd" then ret ctx
    else
      exit_error (A := unit)
                 ("Cuckoo CWD " ++ cwd ++ " does not yet exist. Run "
                  ++ "'cuckoo createcwd' if this is the first time you are "
                  ++ "running Cuckoo with this CWD path") ;;
      main_configure ctx cwd distributed debug quiet verbose
  else main_configure ctx cwd distributed debug quiet verbose.

(** [ctx.parent.<attribute>] *)
Definition attribute {A} (name : string) (v : option A) : Cmd A :=
  match v with Some a => ret a | None => raise (AttributeError name) end.

(** The last five lines of [create_cwd]. *)
Definition create_cwd_fresh (path : string) : Cmd unit :=
  call_ (EvCwdCreate path) Unhandled (cuckoocwd_create E path) ;;
  call_ (EvCwdSet path) InvalidCWDError (cuckoocwd_set E path) ;;
  try_except
    (call_ EvCreateConfigurations StartupError (create_configurations E) ;;
     print_info ("Created Cuckoo CWD at: " ++ path))
    (on_StartupError
       (fun e => exit_error ("Failure during configuration generation: " ++ e))).

Definition create_cwd (parent : Ctx) (update_directories regen_configs : bool)
  : Cmd unit :=
  path <- attribute "cwd_path" (cwd_path parent) ;;
  isdir <- query (EvIsDir path) (fun w => os_path_isdir E w path) ;;
  if isdir then
    (if negb regen_configs && negb update_directories
     then exit_error ("Path " ++ path ++ " already exists.")
     else ret tt) ;;
    valid <- query (EvCwdIsValid path) (fun w => cuckoocwd_is_valid E w path) ;;
    (if negb valid
     then exit_error ("Path " ++ path ++ " is not a valid Cuckoo CWD. "
                      ++ "Cannot regenerate configurations.")
     else ret tt) ;;
    if regen_configs then
      try_except
        (call_ EvCreateConfigurations StartupError (create_configurations E) ;;
         print_info "Re-created missing configuration files")
        (on_StartupError
           (fun e => exit_error ("Failure during configuration generation: " ++ e)))
    else if update_directories then
      try_except
        (call_ EvCwdUpdateMissing InvalidCWDError (cuckoocwd_update_missing E) ;;
         print_info "Created missing directories")
        (on_InvalidCWDError
           (fun e => exit_error ("Failed during directory updating: " ++ e)))
    else create_cwd_fresh path
  else create_cwd_fresh path.

(** [list(filter(None, [t.strip() for t in tags.split(",")]))] *)
Definition machine_tags (tags : string) : list string :=
  filter nonempty (map strip (split "," tags)).

Definition machine_add (machinery name label ip platform_ : string)
    (os_version_ snapshot interface : option string) (tags : string) : Cmd unit :=
  try_except
    (let args := mkMachineArgs machinery name label ip platform_ os_version_
                               snapshot interface (machine_tags tags) in
     call_ (EvAddMachine args) StartupError (add_machine E args) ;;
     print_info ("Added machine " ++ name ++ " to machinery " ++ machinery))
    (on_StartupError (fun e => exit_error ("Failed to add machine. " ++ e))).

Definition importmode (ctx parent : Ctx) : Cmd unit :=
  if truthy_str (invoked_subcommand ctx) then ret tt
  else
    register_shutdown (StopMsg "Stopping import mode..") 1 ;;
    try_finally
      (try_except
         (level <- attribute "loglevel" (loglevel parent) ;;
          start_subsystem ImportMode (start_importmode E) level)
         (on_StartupError
            (fun e => exit_error ("Failure during import mode startup: " ++ e))))
      call_registered_shutdowns.

End Commands.

(** ** Observations on runs *)

(** The events a command appends to the trace when started in [s]. *)
Definition emitted {W A} (m : M W A) (s : State W) : list event :=
  skipn (length (trace s)) (trace (snd (m s))).

(** [list(g)]: the values a generator yields when started in [s]. *)
Definition results {W} (g : Generator W) (s : State W) : list SubmissionResult :=
  yields (emitted (drain g) s).

(** The shutdown actions run along a trace. *)
Fixpoint shutdown_calls (t : list event) : list ShutdownAction :=
  match t with
  | [] => []
  | EvShutdownCall a :: t' => a :: shutdown_calls t'
  | _ :: t' => shutdown_calls t'
  end.

(** The trace of running a list of shutdown actions. *)
Definition action_events (l : list ShutdownAction) : list event :=
  flat_map (fun a => EvShutdownCall a
                     :: match a with
                        | StopMsg text => [EvPrint text]
                        | SubsystemStop _ => []
                        end) l.

(** The settings handed to the submission collaborator along a trace. *)
Fixpoint submitted_settings (t : list event) : list Settings :=
  match t with
  | [] => []
  | EvSubmitFile _ st _ :: t' => st :: submitted_settings t'
  | EvSubmitUrl _ st :: t' => st :: submitted_settings t'
  | _ :: t' => submitted_settings t'
  end.

(** The platform entry a [--platform] token stands for: the text before
    the first comma, and the whole remainder as the version. *)
Definition token_platform (token : string) : Platform :=
  match partition_first "," token with
  | Some (a, b) => mkPlatform a (Some b)
  | None => mkPlatform token None
  end.

(** The number of [submit.notify()] calls along a trace. *)
Fixpoint notifications (t : list event) : nat :=
  match t with
  | [] => 0
  | EvNotify :: t' => S (notifications t')
  | _ :: t' => notifications t'
  end.

Definition is_some {A} (o : option A) : bool :=
  match o with Some _ => true | None => false end.

(** Exactly one of [analysis_id] and [error] is present. *)
Definition exactly_one (r : SubmissionResult) : bool :=
  xorb (is_some (res_analysis_id r)) (is_some (res_error r)).

(** The tuple yielded for a path that does not exist. *)
Definition not_found (path : string) : SubmissionResult :=
  mkResult None path (Some (ErrStr "No such file or directory")).

(** The tuple yielded for a unit, given what the collaborator answered. *)
Definition outcome_result (unit_ : string) (a : analysis_id + string)
  : SubmissionResult :=
  match a with
  | inl i => mkResult (Some i) unit_ None
  | inr e => mkResult None unit_ (Some (ErrSubmission e))
  end.

Fixpoint zip_results (units : list string) (answers : list (analysis_id + string))
  : list SubmissionResult :=
  match units, answers with
  | u :: us, a :: answers' => outcome_result u a :: zip_results us answers'
  | _, _ => []
  end.

Definition all_space (s : string) : bool :=
  forallb is_space (list_ascii_of_string s).

Definition first_char (s : string) : option ascii :=
  match s with EmptyString => None | String c _ => Some c end.

Fixpoint last_char (s : string) : option ascii :=
  match s with
  | EmptyString => None
  | String c EmptyString => Some c
  | String _ r => last_char r
  end.

Definition not_space (c : option ascii) : bool :=
  match c with Some a => negb (is_space a) | None => true end.

(** A string is its [strip] between two runs of white space, and the
    [strip] neither starts nor ends with white space. *)
Definition stripped_of (p : string) : Prop :=
  exists l r,
    p = (l ++ strip p ++ r)%string
    /\ all_space l = true /\ all_space r = true
    /\ not_space (first_char (strip p)) = true
    /\ not_space (last_char (strip p)) = true.

Definition action_eq_dec (a b : ShutdownAction) : {a = b} + {a <> b}.
Proof. decide equality; apply string_dec. Defined.

Section Answers.

Variable E : Env.

(** The raw targets [os.path.exists] rejects, and the units the targets
    resolve to, on the disk as the first loop of [_submit_files] sees it. *)
Definition missing_targets (w : World E) (targets : list string) : list string :=
  filter (fun p => negb (os_path_exists E w p)) targets.

Definition resolved_units (w : World E) (targets : list string) : list string :=
  flat_map (enumerate_files E w) targets.

(** What the submission collaborator answers to the successive calls for a
    list of units, and the state it is left in. *)
Fixpoint answers (submit : string -> World E -> (analysis_id + string) * World E)
    (units : list string) (w : World E)
  : list (analysis_id + string) * World E :=
  match units with
  | [] => ([], w)
  | u :: us =>
      let '(a, w1) := submit u w in
      let '(l, w2) := answers submit us w1 in
      (a :: l, w2)
  end.

Definition url_answers (settings : Settings) :=
  answers (fun u => submit_url E u settings).

Definition file_answers (settings : Settings) :=
  answers (fun u => submit_file E u settings (basename u)).

(** The trace of a submission loop: per unit the call, the yield, and what
    the consumer logs for the yielded value. *)
Fixpoint unit_events (ev : string -> event) (f : SubmissionResult -> list event)
    (units : list string) (a : list (analysis_id + string)) : list event :=
  match units, a with
  | u :: us, x :: xs =>
      ev u :: EvYield (outcome_result u x) :: f (outcome_result u x)
      ++ unit_events ev f us xs
  | _, _ => []
  end.

(** The trace of the first loop of [_submit_files]. *)
Definition resolve_events (f : SubmissionResult -> list event) (w : World E)
    (targets : list string) : list event :=
  flat_map (fun p =>
              EvExists p
              :: (if os_path_exists E w p then []
                  else EvYield (not_found p) :: f (not_found p))
              ++ [EvEnumerate p]) targets.

(** What [report] logs for a yielded value. *)
Definition report_events (kind : string) (r : SubmissionResult) : list event :=
  if truthy (res_error r)
  then [EvPrintError ("Failed to submit " ++ kind ++ ": " ++ res_target r ++ ". "
                      ++ str_opt_error (res_error r))]
  else [EvPrintInfo ("Submitted " ++ kind ++ ": " ++ str_id (res_analysis_id r)
                     ++ " -> " ++ res_target r)].

(** What the exit of a guarded subsystem run looks like: the actions run
    are the registered ones, each once, by ascending order; a startup
    failure is printed and turned into exit status 1. *)
Definition exits_cleanly {A} (run : M (World E) A) (s : State (World E))
    (registered : list (ShutdownAction * Z)) (failure : option string)
    (prefix : string) : Prop :=
  shutdown_calls (emitted run s) = map fst (sort_by_order registered)
  /\ Permutation (shutdown_calls (emitted run s)) (map fst registered)
  /\ match failure with
     | None => exists a, fst (run s) = Normal a
     | Some msg =>
         fst (run s) = Raised (SystemExit 1)
         /\ In (EvPrintError (prefix ++ msg)) (emitted run s)
     end.

End Answers.

(** A loop body that only logs: [f r] is what it appends for [r]. *)
Definition logs_only {W} (body : SubmissionResult -> M W unit)
    (f : SubmissionResult -> list event) : Prop :=
  forall r s, body r s = (Normal tt, mkState (world s) (registry s) (trace s ++ f r)).

(** ** A small installation, for running the commands

    One working directory, one sample, one directory of two samples; the
    submission collaborator numbers the analyses it accepts, rejects one
    file and one URL, and has nothing to notify while it accepted nothing. *)
Module Demo.

Definition mem (p : string) (l : list string) : bool :=
  existsb (String.eqb p) l.

Definition disk : list string :=
  ["/cwd"; "/cwd/monitor"; "/tmp/a.exe"; "/tmp/dir"; "/tmp/dir/x"; "/tmp/dir/y"].

Definition files_of (p : string) : list string :=
  if String.eqb p "/tmp/a.exe" then ["/tmp/a.exe"]
  else if String.eqb p "/tmp/dir" then ["/tmp/dir/x"; "/tmp/dir/y"]
  else [].

Definition new_id (n : nat) : string :=
  "20261104-" ++ String (ascii_of_nat (48 + n)) EmptyString.

Definition accept (bad unit_ : string) (n : nat) : (analysis_id + string) * nat :=
  if String.eqb unit_ bad then (inr "rejected", n) else (inl (new_id n), S n).

Definition env : Env := {|
  World := nat;
  os_path_exists := fun _ p => mem p disk;
  os_path_isdir := fun _ p => mem p ["/cwd"; "/tmp/dir"];
  enumerate_files := fun _ p => files_of p;
  cuckoocwd_DEFAULT := "/cwd";
  cuckoocwd_exists := fun _ p => String.eqb p "/cwd";
  cuckoocwd_is_valid := fun _ p => String.eqb p "/cwd";
  cuckoocwd_set := fun _ n => (None, n);
  cuckoocwd_create :=
    fun p n => (if mem p disk then Some "File exists" else None, n);
  cuckoocwd_update_missing := fun n => (None, n);
  create_configurations := fun n => (None, n);
  Paths_monitor := fun _ => "/cwd/monitor";
  Paths_machinestates := fun _ => "/cwd/machinestates.json";
  VERBOSE := 5;
  submit_file := fun p _ _ n => accept "/tmp/dir/x" p n;
  submit_url := fun u _ n => accept "http://bad.example" u n;
  submit_notify := fun n => (match n with O => Some "nothing to notify" | _ => None end, n);
  set_machinesdump_path := fun _ n => (None, n);
  settings_check := fun _ => None;
  add_machine := fun _ n => (None, n);
  start_cuckoo := fun _ n => mkRun [(SubsystemStop "scheduler", 5%Z)] None n;
  start_cuckoo_controller :=
    fun _ n => mkRun [(SubsystemStop "controller", 0%Z)] (Some "no nodes") n;
  start_importmode := fun _ n => mkRun [] None n
|}.

Definition start : State nat := mkState 0 [] [].

Definition settings : Settings := mkSettings 120 1 false [].

End Demo.

(** ** More of the command line

    What follows covers the parts of [main.py] and [setup.py] beside the
    submission pipeline: how click chains [main] and its subcommands,
    [getmonitor], [api token], and the guards of the install script. *)

(** Kinds of events on a trace. *)
Definition is_disk_query (e : event) : bool :=
  match e with EvExists _ | EvEnumerate _ => true | _ => false end.

Definition is_submit_call (e : event) : bool :=
  match e with EvSubmitFile _ _ _ | EvSubmitUrl _ _ => true | _ => false end.

Definition is_printed (e : event) : bool :=
  match e with
  | EvPrintInfo _ | EvPrintError _ | EvPrintWarning _ => true
  | _ => false
  end.

Definition is_start (e : event) : bool :=
  match e with EvStart _ _ => true | _ => false end.

Definition is_create_or_set (e : event) : bool :=
  match e with EvCwdCreate _ | EvCwdSet _ => true | _ => false end.

(** The calls that write under the working directory. *)
Definition is_cwd_write (e : event) : bool :=
  match e with
  | EvCwdCreate _ | EvCwdUpdateMissing | EvCreateConfigurations => true
  | _ => false
  end.

(** The line [submission] prints for a yielded tuple, by what the tuple
    holds (not by the truth value the loop tests). *)
Definition result_line (kind : string) (r : SubmissionResult) : event :=
  match res_error r with
  | Some e =>
      EvPrintError ("Failed to submit " ++ kind ++ ": " ++ res_target r ++ ". "
                    ++ str_error e)
  | None =>
      EvPrintInfo ("Submitted " ++ kind ++ ": " ++ str_id (res_analysis_id r)
                   ++ " -> " ++ res_target r)
  end.

(** What [submit.file] is called with. *)
Definition good_file_call (settings : Settings) (e : event) : Prop :=
  match e with
  | EvSubmitFile p st name =>
      st = settings
      /\ contains "/" name = false
      /\ exists dir,
           p = (dir ++ name)%string
           /\ (dir = EmptyString \/ last_char dir = Some "/"%char)
  | EvSubmitUrl _ _ => False
  | _ => True
  end.

Definition is_yield_or_printed (e : event) : bool :=
  match e with EvYield _ => true | _ => is_printed e end.

(** A [--tags] value made of white space and commas only. *)
Definition blank (t : string) : bool :=
  forallb (fun c => is_space c || Ascii.eqb c ",") (list_ascii_of_string t).

(** A tag as [machine add] passes it on: not empty, no comma, no white
    space at either end. *)
Definition clean_tag (t : string) : bool :=
  nonempty t && negb (contains "," t)
  && not_space (first_char t) && not_space (last_char t).

(** [token] written back from a platform entry. *)
Definition platform_token (p : Platform) : string :=
  match os_version p with
  | Some v => platform p ++ "," ++ v
  | None => platform p
  end.

(** The log level [main] derives from its flags. *)
Definition chosen_level (verbose_level : Z) (debug quiet verbose : bool) : Z :=
  if verbose then verbose_level
  else if debug then logging_DEBUG
  else if quiet then logging_WARNING
  else logging_INFO.

(** The two long messages of [main]. *)
Definition missing_cwd_message (dir : string) : string :=
  "Cuckoo CWD " ++ dir ++ " does not yet exist. Run "
  ++ "'cuckoo createcwd' if this is the first time you are "
  ++ "running Cuckoo with this CWD path".

Definition missing_monitor_message : string :=
  "No monitor and stager binaries are present yet. "
  ++ "Use 'cuckoo getmonitor <zip path>' to unpack and use monitor "
  ++ "and stagers from a Cuckoo monitor zip.".

Section Chained.

Variable E : Env.

(** The working directory [main] settles on: [--cwd], or the default when
    the option is absent or empty. *)
Definition chosen_cwd (cwd : option string) : string :=
  match cwd with
  | Some c => if nonempty c then c else cuckoocwd_DEFAULT E
  | None => cuckoocwd_DEFAULT E
  end.

(** Whether [main] gets as far as starting Cuckoo: the working directory
    exists and is accepted, no subcommand was invoked, and the monitor
    binaries are there. *)
Definition main_ready (ctx : Ctx) (cwd : option string) (w : World E) : bool :=
  let dir := chosen_cwd cwd in
  cuckoocwd_exists E w dir
  && match cuckoocwd_set E dir w with
     | (None, w1) =>
         negb (truthy_str (invoked_subcommand ctx))
         && os_path_exists E w1 (Paths_monitor E w1)
     | (Some _, _) => false
     end.

(** [cuckoo ... createcwd ...]: click runs the callback of the [main] group
    with [invoked_subcommand] set, then the subcommand, whose [ctx.parent]
    is the context the group callback worked on. *)
Definition cli_createcwd (cwd : option string)
    (distributed debug quiet verbose update_directories regen_configs : bool)
  : Cmd E unit :=
  parent <- main E (mkCtx None None (Some "createcwd")) cwd
                 distributed debug quiet verbose ;;
  create_cwd E parent update_directories regen_configs.

(** [cuckoo ... importmode] *)
Definition cli_importmode (cwd : option string)
    (distributed debug quiet verbose : bool) : Cmd E unit :=
  parent <- main E (mkCtx None None (Some "importmode")) cwd
                 distributed debug quiet verbose ;;
  importmode E (mkCtx None None None) parent.

End Chained.

(** *** [getmonitor] and [api token] *)

(** The calls these two commands make outside [main.py]. *)
Inductive tool_call :=
| CallIsFile (path : string)
| CallUnpack (zip_path root : string)
| CallLoadApp
| CallPrintApiKeys
| CallCreateKey (owner : string) (admin : bool)
| CallDeleteKey (identifier : Z)
| CallConfirm (prompt : string)
| CallDeleteAll
| CallGetHelp.

(** The collaborators of [getmonitor] and [api token]: the unpacker of
    [cuckoo.common.guest], the key store of [cuckoo.web.api.apikey], click's
    confirmation prompt and help text. *)
Record Tools := mkTools {
  Store : Type;
  os_path_isfile : Store -> string -> bool;
  cuckoocwd_root : Store -> string;
  unpack_monitor_components : string -> string -> Store -> option string * Store;
  load_app : Store -> Store;
  print_api_keys : Store -> Store;
  create_key : string -> bool -> Store -> ((string * Z) + string) * Store;
  delete_key : Z -> Store -> bool * Store;
  delete_all : Store -> Z * Store;
  click_confirm : string -> Store -> bool * Store;
  get_help : Store -> string
}.

(** The collaborators' state together with the calls made so far. *)
Record Logged (S : Type) := mkLogged {
  inner : S;
  calls : list tool_call
}.
Arguments mkLogged {S}.
Arguments inner {S}.
Arguments calls {S}.

(** A collaborator call: it is recorded, and runs on the inner state. *)
Definition tool {S A} (c : tool_call) (f : S -> A * S) : M (Logged S) A :=
  fun s =>
    let '(a, i) := f (inner (world s)) in
    (Normal a,
     mkState (mkLogged i (calls (world s) ++ [c])) (registry s) (trace s)).

(** [str(n)] for an integer. *)
Definition str_int (n : Z) : string := NilZero.string_of_int (Z.to_int n).

(** [if n:] for an optional integer: [None] and [0] are false. *)
Definition truthy_int (n : option Z) : bool :=
  match n with Some z => negb (z =? 0)%Z | None => false end.

Section ToolCommands.

Variable T : Tools.

Definition get_monitor (zip_path : string) : M (Logged (Store T)) unit :=
  found <- tool (CallIsFile zip_path)
                (fun i => (os_path_isfile T i zip_path, i)) ;;
  (if negb found
   then exit_error ("Zip file does not exist: " ++ zip_path)
   else ret tt) ;;
  root <- peek (fun w => cuckoocwd_root T (inner w)) ;;
  r <- tool (CallUnpack zip_path root)
            (unpack_monitor_components T zip_path root) ;;
  match r with
  | None => ret tt
  | Some msg => raise (Unhandled msg)
  end.

(** [apitoken]: the options are tried in the order [--list], [--create],
    [--delete], [--clear], each by its truth value.  The [except
    APIKeyError] clause is applied where [create_key] answers with the
    error. *)
Definition apitoken (list_ : bool) (create : option string) (admin : bool)
    (delete : option Z) (clear : bool) : M (Logged (Store T)) unit :=
  tool CallLoadApp (fun i => (tt, load_app T i)) ;;
  if list_ then
    tool CallPrintApiKeys (fun i => (tt, print_api_keys T i))
  else if truthy_str create then
    let owner := match create with Some c => c | None => EmptyString end in
    r <- tool (CallCreateKey owner admin) (create_key T owner admin) ;;
    match r with
    | inl (key, identifier) =>
        print_info ("Created key " ++ key ++ " with ID: " ++ str_int identifier)
    | inr e => exit_error ("API token creation failed: " ++ e)
    end
  else if truthy_int delete then
    let n := match delete with Some z => z | None => 0%Z end in
    deleted <- tool (CallDeleteKey n) (delete_key T n) ;;
    if deleted then print_info ("Deleted key with ID " ++ str_int n)
    else ret tt
  else if clear then
    confirmed <- tool (CallConfirm "Delete all API tokens?")
                      (click_confirm T "Delete all API tokens?") ;;
    if confirmed
    then count <- tool CallDeleteAll (delete_all T) ;;
         print_info ("Deleted " ++ str_int count ++ " API tokens")
    else ret tt
  else
    help <- tool CallGetHelp (fun i => (get_help T i, i)) ;;
    log (EvPrint help).

(** The calls a command adds to the record. *)
Definition called {A} (m : M (Logged (Store T)) A)
    (s : State (Logged (Store T))) : list tool_call :=
  skipn (length (calls (world s))) (calls (world (snd (m s)))).

(** The calls of [apitoken], by its options: [load_app], then what the
    first option that counts asks for. *)
Definition apitoken_calls (list_ : bool) (create : option string)
    (admin : bool) (delete : option Z) (clear : bool) (i : Store T)
  : list tool_call :=
  CallLoadApp
  :: if list_ then [CallPrintApiKeys]
     else if truthy_str create
     then [CallCreateKey (match create with Some c => c | None => EmptyString end)
                         admin]
     else if truthy_int delete
     then [CallDeleteKey (match delete with Some z => z | None => 0%Z end)]
     else if clear
     then CallConfirm "Delete all API tokens?"
          :: (if fst (click_confirm T "Delete all API tokens?" (load_app T i))
              then [CallDeleteAll] else [])
     else [CallGetHelp].

End ToolCommands.

(** *** [setup.py] *)

(** [c.lower()] for one character, for code points below 256. *)
Definition lower_char (c : ascii) : ascii :=
  let n := nat_of_ascii c in
  if (((65 <=? n) && (n <=? 90)) || ((192 <=? n) && (n <=? 214))
      || ((216 <=? n) && (n <=? 222)))%nat
  then ascii_of_nat (n + 32)
  else c.

(** [s.lower()] *)
Fixpoint lower (s : string) : string :=
  match s with
  | EmptyString => EmptyString
  | String c r => String (lower_char c) (lower r)
  end.

(** How the install script ends: [sys.exit(msg)], an [IndexError] on an
    empty version string, an exception raised while the arguments of
    [setuptools.setup] are evaluated, or the call itself, with the two
    arguments that are computed. *)
Inductive SetupRun :=
| SysExit (msg : string)
| IndexError
| ArgumentRaises (exc : string)
| CallsSetup (packages : list string) (long_description : string).

(** [setup.py]: the guards on [sys.version] and [platform.system()], then
    the arguments of [setuptools.setup] in the order they are written --
    [find_namespace_packages(...)] and, further down,
    [open("README.rst", "r").read()], each of which returns ([inl]) or
    raises ([inr], the exception: [FileNotFoundError] when the file is
    missing) -- then the call. *)
Definition setup_script (sys_version platform_system : string)
    (find_namespace_packages : list string + string)
    (readme : string + string) : SetupRun :=
  match sys_version with
  | EmptyString => IndexError
  | String c _ =>
      if Ascii.eqb c "2"
      then SysExit ("The latest version of Cuckoo is Python >=3.6 only. Any Cuckoo version"
                    ++ " earlier than 3.0.0 supports Python 2.")
      else if negb (String.eqb (lower platform_system) "linux")
      then SysExit "Cuckoo 3 only supports Linux hosts"
      else
        match find_namespace_packages with
        | inr exc => ArgumentRaises exc
        | inl packages =>
            match readme with
            | inr exc => ArgumentRaises exc
            | inl long_description => CallsSetup packages long_description
            end
        end
  end.

(** The spellings of "linux", in any mix of capitals and small letters. *)
Definition linux_spelling (s : string) : Prop :=
  match s with
  | String c1 (String c2 (String c3 (String c4 (String c5 EmptyString)))) =>
      (c1 = "l" \/ c1 = "L") /\ (c2 = "i" \/ c2 = "I")
      /\ (c3 = "n" \/ c3 = "N") /\ (c4 = "u" \/ c4 = "U")
      /\ (c5 = "x" \/ c5 = "X")
  | _ => False
  end%char.

(** *** A second installation, where things go wrong

    No working directory yet at ["/fresh"], a directory ["/old"] that is
    not a valid working directory, and collaborators that refuse. *)
Module Broken.

Definition env : Env := {|
  World := nat;
  os_path_exists := fun _ _ => false;
  os_path_isdir := fun _ p => String.eqb p "/old";
  enumerate_files := fun _ _ => [];
  cuckoocwd_DEFAULT := "/fresh";
  cuckoocwd_exists := fun _ p => String.eqb p "/old" || String.eqb p "/cwd";
  cuckoocwd_is_valid := fun _ _ => false;
  cuckoocwd_set :=
    fun p n => (if String.eqb p "/old" then Some "no marker file" else None, n);
  cuckoocwd_create := fun _ n => (None, S n);
  cuckoocwd_update_missing := fun n => (Some "not a working directory", n);
  create_configurations := fun n => (None, S n);
  Paths_monitor := fun _ => "/cwd/monitor";
  Paths_machinestates := fun _ => "/cwd/machinestates.json";
  VERBOSE := 5;
  submit_file := fun _ _ _ n => (inr "no machines", n);
  submit_url := fun _ _ n => (inr "no machines", n);
  submit_notify := fun n => (Some "nobody listens", n);
  set_machinesdump_path := fun _ n => (Some "no machines dump", n);
  settings_check := fun _ => None;
  add_machine := fun _ n => (Some "unknown machinery", n);
  start_cuckoo := fun _ n => mkRun [] None n;
  start_cuckoo_controller := fun _ n => mkRun [] None n;
  start_importmode := fun _ n => mkRun [] None n
|}.

Definition start : State nat := mkState 0 [] [].

(** A key store of two keys that knows no zip file. *)
Definition tools : Tools := {|
  Store := nat;
  os_path_isfile := fun _ _ => false;
  cuckoocwd_root := fun _ => "/cwd";
  unpack_monitor_components := fun _ _ n => (None, n);
  load_app := fun n => n;
  print_api_keys := fun n => n;
  create_key := fun _ _ n => (inr "owner exists", n);
  delete_key := fun _ n => (true, pred n);
  delete_all := fun n => (Z.of_nat n, 0);
  click_confirm := fun _ n => (false, n);
  get_help := fun _ => "Usage: cuckoo api token [OPTIONS]"
|}.

Definition store : State (Logged nat) := mkState (mkLogged 2 []) [] [].

End Broken.

(** ** Running the monad *)

Lemma skipn_length_app {A} (l r : list A) : skipn (length l) (l ++ r) = r.
Proof. induction l as [|x l IH]; simpl; auto. Qed.

Lemma emitted_eq {W A} (m : M W A) (s : State W) o w r evs :
  m s = (o, mkState w r (trace s ++ evs)) -> emitted m s = evs.
Proof.
  intros H. unfold emitted. rewrite H. simpl. apply skipn_length_app.
Qed.

Lemma yields_app (a b : list event) : yields (a ++ b) = yields a ++ yields b.
Proof.
  induction a as [|e a IH]; simpl; auto.
  destruct e; simpl; auto. now rewrite IH.
Qed.

Lemma shutdown_calls_app (a b : list event) :
  shutdown_calls (a ++ b) = shutdown_calls a ++ shutdown_calls b.
Proof.
  induction a as [|e a IH]; simpl; auto.
  destruct e; simpl; auto. now rewrite IH.
Qed.

Lemma logs_only_drain {W} : logs_only (W := W) (fun _ => ret tt) (fun _ => []).
Proof.
  intros r [w g t]. unfold ret. simpl. now rewrite app_nil_r.
Qed.

Lemma notifications_app (a b : list event) :
  notifications (a ++ b) = notifications a + notifications b.
Proof.
  induction a as [|e a IH]; simpl; auto.
  destruct e; simpl; auto.
Qed.

Lemma submitted_settings_app (a b : list event) :
  submitted_settings (a ++ b) = submitted_settings a ++ submitted_settings b.
Proof.
  induction a as [|e a IH]; simpl; auto.
  destruct e; simpl; auto; now rewrite IH.
Qed.

Ltac step :=
  unfold bind, query, peek, call_, call, log, ret, raise, try_except,
         on_SubmissionError, on_StartupError, on_InvalidCWDError,
         print_info, print_error, print_warning, exit_error; simpl.

Ltac flatten := repeat rewrite <- app_assoc; simpl.

(** Rewrites the [try] / [finally] block of the goal with an instance [H] of
    the lemma about guarded subsystem runs, up to computation. *)
Ltac use_guarded_start H :=
  match goal with
  | |- context [try_finally ?a ?b ?c] =>
      let Hg := fresh "Hg" in
      pose proof H as Hg; cbv zeta in Hg;
      match type of Hg with
      | _ = ?rhs =>
          let Hx := fresh "Hx" in
          assert (Hx : try_finally a b c = rhs) by exact Hg;
          rewrite Hx; clear Hx Hg
      end
  end.

(** ** Strings *)

Lemma split_not_nil sep s : split sep s <> [].
Proof.
  destruct s as [|c r]; simpl; [discriminate|].
  destruct (Ascii.eqb c sep); [discriminate|].
  destruct (split sep r); discriminate.
Qed.

Lemma join_cons_char sep c p ps :
  join sep (String c p :: ps) = String c (join sep (p :: ps)).
Proof. destruct ps; reflexivity. Qed.

(** Joining the pieces of [split] with the separator gives the string
    back. *)
Lemma join_split sep s : join (String sep EmptyString) (split sep s) = s.
Proof.
  induction s as [|c r IH]; simpl; auto.
  destruct (Ascii.eqb_spec c sep) as [->|Hne].
  - pose proof (split_not_nil sep r) as Hnil.
    destruct (split sep r) as [|q qs]; [contradiction|].
    change (join (String sep EmptyString) (EmptyString :: q :: qs))
      with (String sep (join (String sep EmptyString) (q :: qs))).
    now rewrite IH.
  - pose proof (split_not_nil sep r) as Hnil.
    destruct (split sep r) as [|q qs]; [contradiction|].
    rewrite join_cons_char. now rewrite IH.
Qed.

(** No piece of [split] contains the separator. *)
Lemma split_pieces_clean sep s :
  Forall (fun p => contains sep p = false) (split sep s).
Proof.
  induction s as [|c r IH]; simpl.
  - now repeat constructor.
  - destruct (Ascii.eqb c sep) eqn:Hc.
    + constructor; auto.
    + destruct (split sep r) as [|q qs]; simpl.
      * repeat constructor. simpl. now rewrite Hc.
      * inversion IH; subst. constructor; auto. simpl. now rewrite Hc.
Qed.

Lemma split_clean sep p : contains sep p = false -> split sep p = [p].
Proof.
  induction p as [|c r IH]; simpl; intros H; auto.
  apply orb_false_iff in H. destruct H as [Hc Hr].
  now rewrite Hc, (IH Hr).
Qed.

Lemma split_app sep p rest :
  contains sep p = false ->
  split sep (p ++ String sep rest) = p :: split sep rest.
Proof.
  induction p as [|c r IH]; simpl; intros H.
  - now rewrite Ascii.eqb_refl.
  - apply orb_false_iff in H. destruct H as [Hc Hr].
    now rewrite Hc, (IH Hr).
Qed.

(** [split] is the only way to cut a string into separator-free pieces. *)
Lemma split_unique sep pieces :
  forall s,
    pieces <> [] ->
    Forall (fun p => contains sep p = false) pieces ->
    join (String sep EmptyString) pieces = s ->
    pieces = split sep s.
Proof.
  induction pieces as [|p ps IH]; intros s Hnil Hclean Hjoin;
    [contradiction|].
  inversion Hclean as [|? ? Hp Hps]; subst.
  destruct ps as [|q qs].
  - simpl. now rewrite split_clean.
  - change (join (String sep EmptyString) (p :: q :: qs))
      with (p ++ String sep (join (String sep EmptyString) (q :: qs)))%string.
    rewrite (split_app _ _ _ Hp). f_equal.
    apply IH; auto. discriminate.
Qed.

Lemma partition_first_found sep a b :
  contains sep a = false ->
  partition_first sep (a ++ String sep b) = Some (a, b).
Proof.
  induction a as [|c a IH]; simpl; intros H.
  - now rewrite Ascii.eqb_refl.
  - apply orb_false_iff in H. destruct H as [Hc Ha].
    rewrite Hc, (IH Ha). reflexivity.
Qed.

Lemma partition_first_absent sep t :
  contains sep t = false -> partition_first sep t = None.
Proof.
  induction t as [|c t IH]; simpl; intros H; auto.
  apply orb_false_iff in H. destruct H as [Hc Ht].
  now rewrite Hc, (IH Ht).
Qed.

Lemma lstrip_spec s :
  exists l, s = (l ++ lstrip s)%string
            /\ all_space l = true
            /\ not_space (first_char (lstrip s)) = true.
Proof.
  induction s as [|c r (l & Hr & Hl & Hf)]; simpl.
  - now exists EmptyString.
  - destruct (is_space c) eqn:Hc.
    + exists (String c l). repeat split; auto.
      * simpl. now rewrite <- Hr.
      * unfold all_space in *. simpl. now rewrite Hc.
    + exists EmptyString. repeat split; auto. simpl. now rewrite Hc.
Qed.

Lemma rstrip_spec s :
  exists r, s = (rstrip s ++ r)%string
            /\ all_space r = true
            /\ not_space (last_char (rstrip s)) = true
            /\ (not_space (first_char s) = true ->
                not_space (first_char (rstrip s)) = true).
Proof.
  induction s as [|c t (r & Ht & Hr & Hl & _)]; simpl.
  - now exists EmptyString.
  - destruct (rstrip t) as [|d u] eqn:Hrs.
    + destruct (is_space c) eqn:Hc.
      * exists (String c r). simpl in *. subst t. repeat split; auto.
        unfold all_space in *. simpl. now rewrite Hc.
      * exists r. simpl in *. subst t. repeat split; auto; now rewrite Hc.
    + exists r. simpl in *. rewrite Ht. repeat split; auto.
Qed.

Lemma lstrip_all_space r : all_space r = true -> lstrip r = EmptyString.
Proof.
  unfold all_space. induction r as [|c r IH]; simpl; auto.
  intros H. apply andb_true_iff in H. destruct H as [Hc Hr].
  rewrite Hc. now apply IH.
Qed.

Lemma rstrip_all_space r : all_space r = true -> rstrip r = EmptyString.
Proof.
  unfold all_space. induction r as [|c r IH]; simpl; auto.
  intros H. apply andb_true_iff in H. destruct H as [Hc Hr].
  now rewrite (IH Hr), Hc.
Qed.

Lemma lstrip_app_space l t :
  all_space l = true -> lstrip (l ++ t) = lstrip t.
Proof.
  unfold all_space. induction l as [|c l IH]; simpl; auto.
  intros H. apply andb_true_iff in H. destruct H as [Hc Hl].
  rewrite Hc. now apply IH.
Qed.

Lemma rstrip_app_space m r :
  all_space r = true -> not_space (last_char m) = true ->
  rstrip (m ++ r) = m.
Proof.
  intros Hr. induction m as [|c m IH]; simpl; intros Hlast.
  - now apply rstrip_all_space.
  - destruct m as [|d u].
    + simpl in *. rewrite (rstrip_all_space _ Hr).
      apply negb_true_iff in Hlast. now rewrite Hlast.
    + rewrite (IH Hlast). reflexivity.
Qed.

(** What [strip] returns is the only middle part with white space around
    it and none at its ends. *)
Lemma strip_unique p l m r :
  p = (l ++ m ++ r)%string ->
  all_space l = true -> all_space r = true ->
  not_space (first_char m) = true -> not_space (last_char m) = true ->
  strip p = m.
Proof.
  intros -> Hl Hr Hfirst Hlast. unfold strip.
  rewrite (lstrip_app_space _ _ Hl).
  destruct m as [|c m'].
  - simpl. now rewrite (lstrip_all_space _ Hr).
  - simpl in Hfirst. apply negb_true_iff in Hfirst.
    change ((String c m' ++ r)%string) with (String c (m' ++ r)).
    cbn [lstrip]. rewrite Hfirst.
    change (String c (m' ++ r)) with ((String c m' ++ r)%string).
    now apply rstrip_app_space.
Qed.

Lemma strip_spec p : stripped_of p.
Proof.
  unfold stripped_of, strip.
  destruct (lstrip_spec p) as (l & Hp & Hl & Hf).
  destruct (rstrip_spec (lstrip p)) as (r & Hq & Hr & Hlast & Hfirst).
  exists l, r. repeat split; auto.
  now rewrite <- Hq.
Qed.

Section Properties.

Variable E : Env.

Lemma logs_only_report (kind : string) :
  logs_only (report E kind) (report_events kind).
Proof.
  intros r s. unfold report, report_events.
  destruct (truthy (res_error r)); reflexivity.
Qed.

Lemma resolve_run body f (Hb : logs_only body f) targets :
  forall files (s : State (World E)),
    _submit_files_resolve E targets files (fun r => log (EvYield r) ;; body r) s
    = (Normal (files ++ resolved_units E (world s) targets),
       mkState (world s) (registry s)
               (trace s ++ resolve_events E f (world s) targets)).
Proof.
  induction targets as [|p ts IH]; intros files [w g t].
  - simpl. unfold ret. simpl. now rewrite !app_nil_r.
  - simpl. step.
    destruct (os_path_exists E w p) eqn:Hex; simpl.
    + rewrite IH. simpl. now flatten.
    + rewrite Hb. simpl. rewrite IH. simpl. unfold not_found. now flatten.
Qed.

Lemma urls_run body f (Hb : logs_only body f) settings units :
  forall s : State (World E),
    _submit_urls E settings units (fun r => log (EvYield r) ;; body r) s
    = (Normal tt,
       mkState (snd (url_answers E settings units (world s))) (registry s)
               (trace s ++ unit_events (fun u => EvSubmitUrl u settings) f units
                                       (fst (url_answers E settings units (world s))))).
Proof.
  unfold url_answers.
  induction units as [|u us IH]; intros [w g t]; simpl.
  - unfold ret. now rewrite app_nil_r.
  - step. destruct (submit_url E u settings w) as [[i|e] w1]; simpl;
      rewrite Hb; simpl; rewrite IH; simpl;
      destruct (answers E _ us w1) as [l w2]; simpl; now flatten.
Qed.

Lemma files_submit_run body f (Hb : logs_only body f) settings units :
  forall s : State (World E),
    _submit_files_submit E settings units (fun r => log (EvYield r) ;; body r) s
    = (Normal tt,
       mkState (snd (file_answers E settings units (world s))) (registry s)
               (trace s ++ unit_events (fun u => EvSubmitFile u settings (basename u))
                                       f units
                                       (fst (file_answers E settings units (world s))))).
Proof.
  unfold file_answers.
  induction units as [|u us IH]; intros [w g t]; simpl.
  - unfold ret. now rewrite app_nil_r.
  - step. destruct (submit_file E u settings (basename u) w) as [[i|e] w1]; simpl;
      rewrite Hb; simpl; rewrite IH; simpl;
      destruct (answers E _ us w1) as [l w2]; simpl; now flatten.
Qed.

Lemma files_run body f (Hb : logs_only body f) settings targets
    (s : State (World E)) :
  let units := resolved_units E (world s) targets in
  for_in (_submit_files E settings targets) body s
  = (Normal tt,
     mkState (snd (file_answers E settings units (world s))) (registry s)
             (trace s ++ resolve_events E f (world s) targets
                      ++ unit_events (fun u => EvSubmitFile u settings (basename u))
                                     f units
                                     (fst (file_answers E settings units (world s))))).
Proof.
  intros units. unfold for_in, _submit_files, bind.
  rewrite (resolve_run body f Hb). simpl.
  rewrite (files_submit_run body f Hb). simpl.
  fold units. now rewrite app_assoc.
Qed.

Lemma answers_length submit units :
  forall w, length (fst (answers E submit units w)) = length units.
Proof.
  induction units as [|u us IH]; intros w; simpl; auto.
  destruct (submit u w) as [a w1]. specialize (IH w1).
  destruct (answers E submit us w1) as [l w2]. simpl in *. now rewrite IH.
Qed.

Lemma yields_unit_events ev f
    (Hev : forall u, yields [ev u] = []) (Hf : forall r, yields (f r) = []) :
  forall units a, yields (unit_events ev f units a) = zip_results units a.
Proof.
  induction units as [|u us IH]; intros [|x xs]; simpl; auto.
  specialize (Hev u). simpl in Hev.
  destruct (ev u); try discriminate; simpl;
    rewrite yields_app, Hf, IH; reflexivity.
Qed.

Lemma yields_resolve_events f (Hf : forall r, yields (f r) = []) w targets :
  yields (resolve_events E f w targets)
  = map not_found (missing_targets E w targets).
Proof.
  unfold resolve_events, missing_targets.
  induction targets as [|p ts IH]; simpl; auto.
  destruct (os_path_exists E w p); simpl.
  - exact IH.
  - rewrite !yields_app, Hf. simpl. now rewrite IH.
Qed.

Lemma zip_results_targets units :
  forall a, length a = length units ->
            map res_target (zip_results units a) = units.
Proof.
  induction units as [|u us IH]; intros [|x xs] H; simpl in *;
    try discriminate; auto.
  f_equal.
  - now destruct x.
  - apply IH. lia.
Qed.

Lemma zip_results_length units :
  forall a, length a = length units ->
            length (zip_results units a) = length units.
Proof.
  intros a H. rewrite <- (zip_results_targets units a H) at 2.
  now rewrite length_map.
Qed.

Lemma results_urls settings targets (s : State (World E)) :
  results (_submit_urls E settings targets) s
  = zip_results targets (fst (url_answers E settings targets (world s))).
Proof.
  unfold results, drain.
  erewrite emitted_eq
    by (unfold for_in; apply (urls_run _ _ logs_only_drain)).
  now apply yields_unit_events.
Qed.

Lemma results_files settings targets (s : State (World E)) :
  let units := resolved_units E (world s) targets in
  results (_submit_files E settings targets) s
  = map not_found (missing_targets E (world s) targets)
    ++ zip_results units (fst (file_answers E settings units (world s))).
Proof.
  intros units. unfold results, drain.
  erewrite emitted_eq by apply (files_run _ _ logs_only_drain).
  rewrite yields_app, yields_resolve_events by reflexivity.
  f_equal. now apply yields_unit_events.
Qed.

Lemma drain_urls_normal settings targets (s : State (World E)) :
  fst (drain (_submit_urls E settings targets) s) = Normal tt.
Proof.
  unfold drain, for_in. now rewrite (urls_run _ _ logs_only_drain).
Qed.

Lemma drain_files_normal settings targets (s : State (World E)) :
  fst (drain (_submit_files E settings targets) s) = Normal tt.
Proof.
  unfold drain. now rewrite (files_run _ _ logs_only_drain).
Qed.

Lemma nth_error_zip_results units :
  forall a i u x,
    nth_error units i = Some u -> nth_error a i = Some x ->
    nth_error (zip_results units a) i = Some (outcome_result u x).
Proof.
  induction units as [|v us IH]; intros [|y ys] [|i] u x Hu Hx;
    simpl in *; try discriminate.
  - now inversion Hu; inversion Hx.
  - now apply IH.
Qed.

Lemma exactly_one_zip_results units :
  forall a, forallb exactly_one (zip_results units a) = true.
Proof.
  induction units as [|u us IH]; intros [|x xs]; simpl; auto.
  rewrite IH. now destruct x.
Qed.

Lemma exactly_one_not_found paths :
  forallb exactly_one (map not_found paths) = true.
Proof. induction paths as [|p ps IH]; simpl; auto. Qed.

(** C2: for the Url kind the dispatcher ends normally and yields one result
    per raw URL, in input order; for the File kind it ends normally and
    yields, after the "No such file or directory" results of the raw targets
    that do not exist, exactly one result per resolved unit, in the order
    [enumerate_files] resolves the raw targets -- so when every raw target
    exists the results are, one for one and in order, the resolved units. *)
Theorem dispatcher_one_result_per_unit (settings : Settings)
    (targets : list string) (s : State (World E)) :
  (fst (drain (_submit_urls E settings targets) s) = Normal tt
   /\ map res_target (results (_submit_urls E settings targets) s) = targets)
  /\ (fst (drain (_submit_files E settings targets) s) = Normal tt
      /\ exists submitted,
           results (_submit_files E settings targets) s
           = map not_found (missing_targets E (world s) targets) ++ submitted
           /\ map res_target submitted = resolved_units E (world s) targets)
  /\ (missing_targets E (world s) targets = [] ->
      map res_target (results (_submit_files E settings targets) s)
      = resolved_units E (world s) targets).
Proof.
  pose proof (results_files settings targets s) as Hf. simpl in Hf.
  assert (Hunits :
            map res_target
              (zip_results (resolved_units E (world s) targets)
                 (fst (file_answers E settings
                         (resolved_units E (world s) targets) (world s))))
            = resolved_units E (world s) targets)
    by (apply zip_results_targets, answers_length).
  repeat split.
  - apply drain_urls_normal.
  - rewrite results_urls. apply zip_results_targets, answers_length.
  - apply drain_files_normal.
  - eexists. split; [exact Hf | exact Hunits].
  - intros Hnone. rewrite Hf, Hnone. exact Hunits.
Qed.

(** C4: whatever the submission collaborator answers, the dispatcher ends
    normally (a [SubmissionError] never leaves it) and every unit gets its
    own result: a unit for which the collaborator raised [SubmissionError e]
    gets the result carrying [e], and all N units get one. *)
Theorem submission_error_is_isolated (settings : Settings)
    (targets : list string) (s : State (World E)) :
  (fst (drain (_submit_urls E settings targets) s) = Normal tt
   /\ let answered := fst (url_answers E settings targets (world s)) in
      length (results (_submit_urls E settings targets) s) = length targets
      /\ forall i u e,
           nth_error targets i = Some u ->
           nth_error answered i = Some (inr e) ->
           nth_error (results (_submit_urls E settings targets) s) i
           = Some (mkResult None u (Some (ErrSubmission e))))
  /\ (fst (drain (_submit_files E settings targets) s) = Normal tt
      /\ let units := resolved_units E (world s) targets in
         let answered := fst (file_answers E settings units (world s)) in
         exists submitted,
           results (_submit_files E settings targets) s
           = map not_found (missing_targets E (world s) targets) ++ submitted
           /\ length submitted = length units
           /\ forall i u e,
                nth_error units i = Some u ->
                nth_error answered i = Some (inr e) ->
                nth_error submitted i
                = Some (mkResult None u (Some (ErrSubmission e)))).
Proof.
  split; split.
  - apply drain_urls_normal.
  - simpl. rewrite results_urls. split.
    + apply zip_results_length, answers_length.
    + intros i u e Hu He.
      now rewrite (nth_error_zip_results _ _ _ _ _ Hu He).
  - apply drain_files_normal.
  - simpl. eexists. split; [apply results_files|]. split.
    + apply zip_results_length, answers_length.
    + intros i u e Hu He.
      now rewrite (nth_error_zip_results _ _ _ _ _ Hu He).
Qed.

(** C5: every result either generator yields has exactly one of
    [analysis_id] and [error] present. *)
Theorem results_have_id_xor_error (settings : Settings)
    (targets : list string) (s : State (World E)) :
  forallb exactly_one (results (_submit_urls E settings targets) s) = true
  /\ forallb exactly_one (results (_submit_files E settings targets) s) = true.
Proof.
  split.
  - rewrite results_urls. apply exactly_one_zip_results.
  - pose proof (results_files settings targets s) as Hf. simpl in Hf.
    rewrite Hf, forallb_app, exactly_one_not_found, exactly_one_zip_results.
    reflexivity.
Qed.

(** Every raw target is handed to [enumerate_files], the missing ones (after
    their error result) included. *)
Lemma every_target_is_enumerated (settings : Settings) (targets : list string)
    (s : State (World E)) (p : string) :
  In p targets ->
  In (EvEnumerate p) (emitted (drain (_submit_files E settings targets)) s).
Proof.
  intros Hin. unfold drain.
  erewrite emitted_eq by apply (files_run _ _ logs_only_drain).
  apply in_or_app. left. unfold resolve_events.
  apply in_flat_map. exists p. split; [exact Hin|].
  right. apply in_or_app. right. now left.
Qed.

Lemma report_events_quiet kind r :
  notifications (report_events kind r) = 0
  /\ yields (report_events kind r) = []
  /\ submitted_settings (report_events kind r) = [].
Proof. unfold report_events. now destruct (truthy (res_error r)). Qed.

Lemma submitted_settings_unit_events settings ev f
    (Hev : forall u, submitted_settings [ev u] = [settings])
    (Hf : forall r, submitted_settings (f r) = []) :
  forall units a,
    Forall (fun st => st = settings)
           (submitted_settings (unit_events ev f units a)).
Proof.
  induction units as [|u us IH]; intros [|x xs]; simpl; auto.
  specialize (Hev u). simpl in Hev.
  destruct (ev u); try discriminate; simpl;
    rewrite submitted_settings_app, Hf; simpl;
    inversion Hev; subst; constructor; auto.
Qed.

Lemma submitted_settings_resolve_events f
    (Hf : forall r, submitted_settings (f r) = []) w targets :
  submitted_settings (resolve_events E f w targets) = [].
Proof.
  unfold resolve_events.
  induction targets as [|p ts IH]; simpl; auto.
  destruct (os_path_exists E w p); simpl; auto.
  now rewrite !submitted_settings_app, Hf, IH.
Qed.

Lemma notifications_unit_events ev f
    (Hev : forall u, notifications [ev u] = 0)
    (Hf : forall r, notifications (f r) = 0) :
  forall units a, notifications (unit_events ev f units a) = 0.
Proof.
  induction units as [|u us IH]; intros [|x xs]; simpl; auto.
  specialize (Hev u). simpl in Hev.
  destruct (ev u); try discriminate; simpl;
    rewrite notifications_app, Hf, IH; reflexivity.
Qed.

Lemma notifications_resolve_events f
    (Hf : forall r, notifications (f r) = 0) w targets :
  notifications (resolve_events E f w targets) = 0.
Proof.
  unfold resolve_events.
  induction targets as [|p ts IH]; simpl; auto.
  destruct (os_path_exists E w p); simpl; auto.
  now rewrite !notifications_app, Hf, IH.
Qed.

(** The [for] loop of [submission] ends normally, keeps the registry and
    makes no notification call. *)
Lemma report_loop_run settings (url : bool) target (s : State (World E)) :
  let loop := for_in ((if url then _submit_urls E else _submit_files E)
                        settings target)
                     (report E (if url then "URL" else "file")) in
  exists w evs,
    loop s = (Normal tt, mkState w (registry s) (trace s ++ evs))
    /\ notifications evs = 0
    /\ Forall (fun st => st = settings) (submitted_settings evs).
Proof.
  destruct url; simpl.
  - unfold for_in. rewrite (urls_run _ _ (logs_only_report "URL")).
    do 2 eexists. split; [reflexivity|]. split.
    + apply notifications_unit_events; [reflexivity|].
      intros r. apply report_events_quiet.
    + apply submitted_settings_unit_events; [reflexivity|].
      intros r. apply report_events_quiet.
  - rewrite (files_run _ _ (logs_only_report "file")).
    do 2 eexists. split; [reflexivity|]. split.
    + rewrite notifications_app, notifications_resolve_events,
        notifications_unit_events; auto; intros r; apply report_events_quiet.
    + rewrite submitted_settings_app, submitted_settings_resolve_events
        by (intros r; apply report_events_quiet).
      apply submitted_settings_unit_events; [reflexivity|].
      intros r. apply report_events_quiet.
Qed.

(** [submission] up to the result loop: both [exit_error] exits, or the
    dispatch with the settings built. *)
Lemma submission_run target url platform_ timeout_ priority_
    (s : State (World E)) :
  let path := Paths_machinestates E (world s) in
  submission E target url platform_ timeout_ priority_ s
  = match set_machinesdump_path E path (world s) with
    | (Some msg, w1) =>
        (Raised (SystemExit 1),
         mkState w1 (registry s)
           (trace s ++ [EvSetMachinesdump path;
                        EvPrintError ("Submission failed: " ++ msg)]))
    | (None, w1) =>
        match make_settings (settings_check E)
                (submission_helper platform_ timeout_ priority_) with
        | inr msg =>
            (Raised (SystemExit 1),
             mkState w1 (registry s)
               (trace s ++ [EvSetMachinesdump path;
                            EvPrintError ("Submission failed: " ++ msg)]))
        | inl settings =>
            submission_dispatch E settings url target
              (mkState w1 (registry s) (trace s ++ [EvSetMachinesdump path]))
        end
    end.
Proof.
  intros path. unfold submission, submission_settings. step. fold path.
  destruct (set_machinesdump_path E path (world s)) as [[msg|] w1]; simpl.
  - now flatten.
  - destruct (make_settings _ _); simpl; now flatten.
Qed.

(** The last [try] / [finally] of [submission]: the loop, one notification
    call, and its warning if it failed. *)
Lemma submission_dispatch_run settings (url : bool) target (s : State (World E)) :
  let loop := for_in ((if url then _submit_urls E else _submit_files E)
                        settings target)
                     (report E (if url then "URL" else "file")) in
  let warning :=
    match fst (submit_notify E (world (snd (loop s)))) with
    | None => []
    | Some msg => [EvPrintWarning msg]
    end in
  submission_dispatch E settings url target s
  = (Normal tt,
     mkState (snd (submit_notify E (world (snd (loop s))))) (registry s)
             (trace s ++ emitted loop s ++ EvNotify :: warning)).
Proof.
  intros loop warning.
  destruct (report_loop_run settings url target s) as (w2 & evs & Hloop & _).
  fold loop in Hloop.
  assert (Hd : submission_dispatch E settings url target
               = try_finally loop (notify_quietly E)) by now destruct url.
  rewrite Hd. unfold warning. rewrite (emitted_eq _ _ _ _ _ _ Hloop).
  unfold try_finally. rewrite Hloop. simpl.
  unfold notify_quietly. step.
  destruct (submit_notify E w2) as [[msg|] w3]; simpl; now flatten.
Qed.

(** C3: in every execution of [submit] that gets past the construction of
    the settings, the command ends normally; after the events of the result
    loop come exactly one [notify] call and, if that call raised
    [SubmissionError], one warning; the loop itself makes no notification
    call, and the results yielded are those of the loop, whatever the
    notification did. *)
Theorem submit_notifies_exactly_once (target : list string) (url : bool)
    (platform_ : list string) (timeout_ priority_ : Z)
    (s : State (World E)) (settings : Settings) (w1 : World E) :
  set_machinesdump_path E (Paths_machinestates E (world s)) (world s)
  = (None, w1) ->
  make_settings (settings_check E)
                (submission_helper platform_ timeout_ priority_)
  = inl settings ->
  let s1 := mkState w1 (registry s)
              (trace s ++ [EvSetMachinesdump (Paths_machinestates E (world s))]) in
  let loop := for_in ((if url then _submit_urls E else _submit_files E)
                        settings target)
                     (report E (if url then "URL" else "file")) in
  let warning :=
    match fst (submit_notify E (world (snd (loop s1)))) with
    | None => []
    | Some msg => [EvPrintWarning msg]
    end in
  let run := submission E target url platform_ timeout_ priority_ in
  fst (run s) = Normal tt
  /\ emitted run s
     = EvSetMachinesdump (Paths_machinestates E (world s))
       :: emitted loop s1 ++ EvNotify :: warning
  /\ notifications (emitted loop s1) = 0
  /\ notifications (emitted run s) = 1
  /\ yields (emitted run s) = yields (emitted loop s1).
Proof.
  intros Hdump Hmake s1 loop warning run.
  destruct (report_loop_run settings url target s1)
    as (w2 & evs & Hloop & Hquiet & _).
  fold loop in Hloop.
  assert (Hevs : emitted loop s1 = evs) by (eapply emitted_eq; exact Hloop).
  assert (Hrun :
            run s = (Normal tt,
                     mkState (snd (submit_notify E (world (snd (loop s1)))))
                       (registry s)
                       (trace s ++ EvSetMachinesdump (Paths_machinestates E (world s))
                                :: evs ++ EvNotify :: warning))).
  { unfold run. rewrite submission_run. simpl. rewrite Hdump, Hmake.
    fold s1. rewrite (submission_dispatch_run settings url target s1).
    fold loop. rewrite Hevs. fold warning. simpl. now flatten. }
  rewrite Hevs. rewrite (emitted_eq _ _ _ _ _ _ Hrun). rewrite Hrun.
  repeat split; auto.
  - simpl. rewrite notifications_app, Hquiet. simpl.
    unfold warning. now destruct (fst (submit_notify E (world (snd (loop s1))))).
  - simpl. rewrite yields_app. simpl.
    unfold warning.
    destruct (fst (submit_notify E (world (snd (loop s1))))); simpl;
      now rewrite app_nil_r.
Qed.

(** C7, as amended: [createcwd] without [--regen-configs] and
    [--update-directories] on a path that already exists as a directory
    ([os.path.isdir] is the test [create_cwd] makes) prints "Path ...
    already exists." and exits with status 1; the only thing it did before
    is the [os.path.isdir] question, so the collaborators' state -- the
    disk -- is as it was. *)
Theorem createcwd_refuses_existing_path (parent : Ctx) (path : string)
    (s : State (World E)) :
  cwd_path parent = Some path ->
  os_path_isdir E (world s) path = true ->
  create_cwd E parent false false s
  = (Raised (SystemExit 1),
     mkState (world s) (registry s)
             (trace s ++ [EvIsDir path;
                          EvPrintError ("Path " ++ path ++ " already exists.")])).
Proof.
  intros Hpath Hdir. unfold create_cwd, attribute. rewrite Hpath.
  step. rewrite Hdir. simpl. now flatten.
Qed.

Lemma insert_by_order_perm x l : Permutation (insert_by_order x l) (x :: l).
Proof.
  induction l as [|y l IH]; simpl; auto.
  destruct (snd x <=? snd y)%Z; auto.
  rewrite IH. apply perm_swap.
Qed.

Lemma sort_by_order_perm l : Permutation (sort_by_order l) l.
Proof.
  induction l as [|x l IH]; simpl; auto.
  rewrite insert_by_order_perm. now constructor.
Qed.

Lemma shutdown_calls_action_events l : shutdown_calls (action_events l) = l.
Proof.
  induction l as [|a l IH]; simpl; auto.
  destruct a; simpl; now rewrite IH.
Qed.

Lemma run_actions_run l :
  forall s : State (World E),
    run_actions l s
    = (Normal tt,
       mkState (world s) (registry s) (trace s ++ action_events l)).
Proof.
  induction l as [|a l IH]; intros [w g t]; simpl.
  - unfold ret. now rewrite app_nil_r.
  - unfold run_action. step. destruct a; simpl; rewrite IH; simpl; now flatten.
Qed.

Lemma call_registered_shutdowns_run (s : State (World E)) :
  call_registered_shutdowns s
  = (Normal tt,
     mkState (world s) []
             (trace s ++ action_events (map fst (sort_by_order (registry s))))).
Proof. unfold call_registered_shutdowns. now rewrite run_actions_run. Qed.

(** [register_shutdown], the protected call of a subsystem entry point and
    the [finally] clause, as [main] and [importmode] write them. *)
Lemma guarded_start_run mode entry level text prefix (s : State (World E)) :
  let r := entry level (world s) in
  let registered := registry s ++ (StopMsg text, 1%Z) :: run_registered r in
  (register_shutdown (StopMsg text) 1 ;;
   try_finally
     (try_except (start_subsystem E mode entry level)
        (on_StartupError (fun e => exit_error (prefix ++ e))))
     call_registered_shutdowns) s
  = (match run_failure r with
     | None => Normal tt
     | Some _ => Raised (SystemExit 1)
     end,
     mkState (run_world r) []
       (trace s
        ++ EvStart mode level
        :: match run_failure r with
           | None => []
           | Some msg => [EvPrintError (prefix ++ msg)]
           end
        ++ action_events (map fst (sort_by_order registered)))).
Proof.
  intros r registered.
  unfold register_shutdown, try_finally, start_subsystem. step.
  fold r. destruct (run_failure r) as [msg|]; simpl;
    rewrite call_registered_shutdowns_run; simpl;
    unfold registered; now flatten.
Qed.

Lemma exits_cleanly_intro {A} (run : M (World E) A) s registered failure prefix
    before mode level w (a : A) :
  shutdown_calls before = [] ->
  run s = (match failure with
           | None => Normal a
           | Some _ => Raised (SystemExit 1)
           end,
           mkState w []
             (trace s
              ++ before
              ++ EvStart mode level
              :: match failure with
                 | None => []
                 | Some msg => [EvPrintError (prefix ++ msg)]
                 end
              ++ action_events (map fst (sort_by_order registered)))) ->
  exits_cleanly E run s registered failure prefix.
Proof.
  intros Hbefore Hrun.
  assert (Hcalls : shutdown_calls (emitted run s)
                   = map fst (sort_by_order registered)).
  { rewrite (emitted_eq _ _ _ _ _ _ Hrun).
    rewrite shutdown_calls_app, Hbefore. simpl.
    destruct failure; simpl; apply shutdown_calls_action_events. }
  unfold exits_cleanly. split; [exact Hcalls|]. split.
  - rewrite Hcalls. apply Permutation_map, sort_by_order_perm.
  - rewrite (emitted_eq _ _ _ _ _ _ Hrun), Hrun.
    destruct failure as [msg|]; simpl.
    + split; [reflexivity|]. apply in_or_app. right. right. now left.
    + now exists a.
Qed.

Lemma main_exits_cleanly (ctx : Ctx) (cwd : option string)
    (distributed debug quiet verbose : bool) (s : State (World E))
    (w1 : World E) :
  let dir := match cwd with
             | Some c => if nonempty c then c else cuckoocwd_DEFAULT E
             | None => cuckoocwd_DEFAULT E
             end in
  let level := if verbose then VERBOSE E
               else if debug then logging_DEBUG
               else if quiet then logging_WARNING
               else logging_INFO in
  let r := (if distributed then start_cuckoo_controller E else start_cuckoo E)
             level w1 in
  cuckoocwd_exists E (world s) dir = true ->
  cuckoocwd_set E dir (world s) = (None, w1) ->
  truthy_str (invoked_subcommand ctx) = false ->
  os_path_exists E w1 (Paths_monitor E w1) = true ->
  exits_cleanly E (main E ctx cwd distributed debug quiet verbose) s
    (registry s ++ (StopMsg "Stopping Cuckoo..", 1%Z) :: run_registered r)
    (run_failure r) "Failure during Cuckoo startup: ".
Proof.
  intros dir level r Hexists Hset Hsub Hmonitor.
  eapply (exits_cleanly_intro _ _ _ _ _
            [EvCwdExists dir; EvCwdSet dir; EvExists (Paths_monitor E w1)]
            (if distributed then Controller else Standalone) level
            (run_world r)
            (mkCtx (Some dir) (Some level) (invoked_subcommand ctx)));
    [reflexivity|].
  unfold main. fold dir. step. rewrite Hexists. simpl.
  unfold main_configure. step. rewrite Hset. simpl. rewrite Hsub.
  fold level. unfold main_run. step. rewrite Hmonitor. simpl.
  destruct distributed; simpl in r |- *.
  - use_guarded_start
      (guarded_start_run Controller (start_cuckoo_controller E) level
         "Stopping Cuckoo.." "Failure during Cuckoo startup: "
         (mkState w1 (registry s)
            (((trace s ++ [EvCwdExists dir]) ++ [EvCwdSet dir])
             ++ [EvExists (Paths_monitor E w1)]))).
    subst r. destruct (run_failure _); simpl; flatten; reflexivity.
  - use_guarded_start
      (guarded_start_run Standalone (start_cuckoo E) level
         "Stopping Cuckoo.." "Failure during Cuckoo startup: "
         (mkState w1 (registry s)
            (((trace s ++ [EvCwdExists dir]) ++ [EvCwdSet dir])
             ++ [EvExists (Paths_monitor E w1)]))).
    subst r. destruct (run_failure _); simpl; flatten; reflexivity.
Qed.

Lemma importmode_exits_cleanly (ctx parent : Ctx) (level : Z)
    (s : State (World E)) :
  let r := start_importmode E level (world s) in
  truthy_str (invoked_subcommand ctx) = false ->
  loglevel parent = Some level ->
  exits_cleanly E (importmode E ctx parent) s
    (registry s ++ (StopMsg "Stopping import mode..", 1%Z) :: run_registered r)
    (run_failure r) "Failure during import mode startup: ".
Proof.
  intros r Hsub Hlevel.
  eapply (exits_cleanly_intro _ _ _ _ _ [] ImportMode level (run_world r) tt);
    [reflexivity|].
  unfold importmode. rewrite Hsub, Hlevel.
  pose proof (guarded_start_run ImportMode (start_importmode E) level
                "Stopping import mode.." "Failure during import mode startup: "
                s) as Hg.
  cbv zeta in Hg. fold r in Hg. simpl. exact Hg.
Qed.

(** C8: in the default (standalone or distributed) run of [main] and in
    [importmode], the shutdown actions run on exit are the registered ones
    -- those registered before, the stop message, and what the subsystem
    registered itself -- each exactly once, by ascending order; this holds
    when the subsystem entry point returns and when it raises
    [StartupError], which is printed and ends the process with status 1. *)
Theorem shutdown_actions_run_once_on_exit :
  (forall (ctx : Ctx) (cwd : option string)
          (distributed debug quiet verbose : bool)
          (s : State (World E)) (w1 : World E),
      let dir := match cwd with
                 | Some c => if nonempty c then c else cuckoocwd_DEFAULT E
                 | None => cuckoocwd_DEFAULT E
                 end in
      let level := if verbose then VERBOSE E
                   else if debug then logging_DEBUG
                   else if quiet then logging_WARNING
                   else logging_INFO in
      let r := (if distributed then start_cuckoo_controller E else start_cuckoo E)
                 level w1 in
      cuckoocwd_exists E (world s) dir = true ->
      cuckoocwd_set E dir (world s) = (None, w1) ->
      truthy_str (invoked_subcommand ctx) = false ->
      os_path_exists E w1 (Paths_monitor E w1) = true ->
      exits_cleanly E (main E ctx cwd distributed debug quiet verbose) s
        (registry s ++ (StopMsg "Stopping Cuckoo..", 1%Z) :: run_registered r)
        (run_failure r) "Failure during Cuckoo startup: ")
  /\ (forall (ctx parent : Ctx) (level : Z) (s : State (World E)),
        let r := start_importmode E level (world s) in
        truthy_str (invoked_subcommand ctx) = false ->
        loglevel parent = Some level ->
        exits_cleanly E (importmode E ctx parent) s
          (registry s ++ (StopMsg "Stopping import mode..", 1%Z)
                      :: run_registered r)
          (run_failure r) "Failure during import mode startup: ").
Proof.
  split.
  - intros. now apply main_exits_cleanly.
  - intros. now apply importmode_exits_cleanly.
Qed.

Lemma add_platform_token_entry h t :
  add_platform_token h t
  = add_platform (platform (token_platform t)) (os_version (token_platform t)) h.
Proof.
  unfold add_platform_token, split1, token_platform.
  now destruct (partition_first "," t) as [[a b]|].
Qed.

Lemma fold_platform_tokens tokens :
  forall h,
    fold_left add_platform_token tokens h
    = mkHelper (h_timeout h) (h_priority h) (h_manual h)
               (h_platforms h ++ map token_platform tokens).
Proof.
  induction tokens as [|t ts IH]; intros h; simpl.
  - rewrite app_nil_r. now destruct h.
  - rewrite IH, add_platform_token_entry. simpl.
    rewrite <- app_assoc. now destruct (token_platform t).
Qed.

Lemma submission_helper_fields platform_ timeout_ priority_ :
  submission_helper platform_ timeout_ priority_
  = mkHelper (Some timeout_) (Some priority_) (Some false)
             (map token_platform platform_).
Proof. unfold submission_helper. now rewrite fold_platform_tokens. Qed.

Lemma make_settings_fields check t p m ps settings :
  make_settings check (mkHelper (Some t) (Some p) (Some m) ps) = inl settings ->
  settings = mkSettings t p m ps.
Proof.
  unfold make_settings. simpl.
  destruct (t <=? 0)%Z; [discriminate|].
  destruct (check _); [discriminate|]. now inversion 1.
Qed.

Lemma submission_settings_run platform_ timeout_ priority_ (s : State (World E)) :
  submission_settings E platform_ timeout_ priority_ s
  = match make_settings (settings_check E)
            (submission_helper platform_ timeout_ priority_) with
    | inl settings => (Normal settings, s)
    | inr msg =>
        (Raised (SystemExit 1),
         mkState (world s) (registry s)
                 (trace s ++ [EvPrintError ("Submission failed: " ++ msg)]))
    end.
Proof.
  unfold submission_settings. step.
  now destruct (make_settings _ _).
Qed.

(** C6: every [--platform] token adds exactly one platform entry, in input
    order, and the entry is the token split at its first comma only: a token
    [a,b] with no comma in [a] gives platform [a] with os_version [b]
    (commas of [b] included), a token without a comma gives the token with
    no os_version; the settings built carry these entries. *)
Theorem platform_tokens_split_at_first_comma (platform_ : list string)
    (timeout_ priority_ : Z) (s : State (World E)) :
  h_platforms (submission_helper platform_ timeout_ priority_)
  = map token_platform platform_
  /\ match fst (submission_settings E platform_ timeout_ priority_ s) with
     | Normal settings => platforms settings = map token_platform platform_
     | Raised _ => True
     end
  /\ (forall h t,
        h_platforms (add_platform_token h t) = h_platforms h ++ [token_platform t])
  /\ (forall a b, contains "," a = false ->
                  token_platform (a ++ "," ++ b) = mkPlatform a (Some b))
  /\ (forall t, contains "," t = false -> token_platform t = mkPlatform t None)
  /\ map token_platform ["windows,10"; "linux"]
     = [mkPlatform "windows" (Some "10"); mkPlatform "linux" None]
  /\ token_platform "a,b,c" = mkPlatform "a" (Some "b,c").
Proof.
  repeat split; try reflexivity.
  - now rewrite submission_helper_fields.
  - rewrite submission_settings_run.
    destruct (make_settings _ _) as [settings|msg] eqn:Hmake; simpl; auto.
    rewrite submission_helper_fields in Hmake.
    now rewrite (make_settings_fields _ _ _ _ _ _ Hmake).
  - intros h t. rewrite add_platform_token_entry. simpl.
    now destruct (token_platform t).
  - intros a b Ha. unfold token_platform.
    change (a ++ "," ++ b)%string with (a ++ String "," b)%string.
    now rewrite (partition_first_found _ _ _ Ha).
  - intros t Ht. unfold token_platform.
    now rewrite (partition_first_absent _ _ Ht).
Qed.

(** C10: [machine add] hands [add_machine] the tag list made of the pieces
    of [--tags] between commas (joined by commas they give the option back,
    none contains a comma, and no other such cut exists), each stripped of
    the white space around it (and of nothing else), without the pieces that
    are then empty; the default [""] gives no tag and ["a, ,b,"] gives
    ["a"; "b"]. *)
Theorem machine_add_passes_stripped_tags
    (machinery name label ip platform_ : string)
    (os_version_ snapshot interface : option string) (tags : string)
    (s : State (World E)) :
  let pieces := split "," tags in
  (exists rest,
      emitted (machine_add E machinery name label ip platform_ os_version_
                           snapshot interface tags) s
      = EvAddMachine (mkMachineArgs machinery name label ip platform_
                        os_version_ snapshot interface
                        (filter nonempty (map strip pieces))) :: rest)
  /\ join "," pieces = tags
  /\ Forall (fun p => contains "," p = false) pieces
  /\ (forall pieces',
        pieces' <> [] ->
        Forall (fun p => contains "," p = false) pieces' ->
        join "," pieces' = tags ->
        pieces' = pieces)
  /\ Forall stripped_of pieces
  /\ (forall p l m r,
        p = (l ++ m ++ r)%string ->
        all_space l = true -> all_space r = true ->
        not_space (first_char m) = true -> not_space (last_char m) = true ->
        strip p = m)
  /\ machine_tags "" = []
  /\ machine_tags "a, ,b," = ["a"; "b"].
Proof.
  intros pieces. repeat split; try reflexivity.
  - unfold machine_add, machine_tags. fold pieces.
    set (args := mkMachineArgs _ _ _ _ _ _ _ _ _).
    destruct (add_machine E args (world s)) as [[msg|] w1] eqn:Hadd.
    + eexists. eapply emitted_eq. step. rewrite Hadd. step.
      flatten. reflexivity.
    + eexists. eapply emitted_eq. step. rewrite Hadd. step.
      flatten. reflexivity.
  - apply join_split.
  - apply split_pieces_clean.
  - intros pieces' Hnil Hclean Hjoin. now apply split_unique.
  - apply Forall_forall. intros p _. apply strip_spec.
  - apply strip_unique.
Qed.

(** C9: whatever the arguments of [submit], the settings the command builds
    -- if it builds any: otherwise it exits with status 1 -- have the manual
    flag off, and so do the settings of every call the dispatcher makes to
    the submission collaborator. *)
Theorem submit_settings_are_not_manual (target : list string) (url : bool)
    (platform_ : list string) (timeout_ priority_ : Z) (s : State (World E)) :
  match fst (submission_settings E platform_ timeout_ priority_ s) with
  | Normal settings => manual settings = false
  | Raised e => e = SystemExit 1
  end
  /\ Forall (fun st => manual st = false)
       (submitted_settings
          (emitted (submission E target url platform_ timeout_ priority_) s)).
Proof.
  split.
  - rewrite submission_settings_run.
    destruct (make_settings _ _) as [settings|msg] eqn:Hmake; simpl; auto.
    rewrite submission_helper_fields in Hmake.
    now rewrite (make_settings_fields _ _ _ _ _ _ Hmake).
  - pose proof (submission_run target url platform_ timeout_ priority_ s) as Hrun.
    cbv zeta in Hrun.
    destruct (set_machinesdump_path E _ (world s)) as [[msg|] w1].
    + rewrite (emitted_eq _ _ _ _ _ _ Hrun). simpl. constructor.
    + destruct (make_settings _ _) as [settings|msg] eqn:Hmake.
      * rewrite submission_helper_fields in Hmake.
        apply make_settings_fields in Hmake.
        set (s1 := mkState w1 _ _) in Hrun.
        rewrite (submission_dispatch_run settings url target s1) in Hrun.
        destruct (report_loop_run settings url target s1)
          as (w2 & evs & Hloop & _ & Hsettings).
        rewrite (emitted_eq _ _ _ _ _ _ Hloop) in Hrun.
        unfold s1 in Hrun. simpl in Hrun.
        rewrite <- app_assoc in Hrun.
        rewrite (emitted_eq _ _ _ _ _ _ Hrun). simpl.
        rewrite submitted_settings_app. apply Forall_app. split.
        -- eapply Forall_impl; [|exact Hsettings].
           intros st ->. now rewrite Hmake.
        -- simpl. now destruct (fst (submit_notify E _)).
      * rewrite (emitted_eq _ _ _ _ _ _ Hrun). simpl. constructor.
Qed.

End Properties.

(** C1 (the code does otherwise): for the one raw target ["/missing"], which
    is not on the disk, [_submit_files] yields the "No such file or
    directory" result and then still hands the path to [enumerate_files]. *)
Theorem missing_path_is_still_enumerated :
  emitted (drain (_submit_files Demo.env Demo.settings ["/missing"])) Demo.start
  = [EvExists "/missing"; EvYield (not_found "/missing"); EvEnumerate "/missing"].
Proof. reflexivity. Qed.

(** ** The theorems on the small installation *)

(** C2 at work: a sample and a directory of two samples, all on the disk,
    give three results, in resolution order. *)
Lemma dispatcher_one_result_per_unit_demo :
  missing_targets Demo.env 0 ["/tmp/a.exe"; "/tmp/dir"] = []
  /\ map res_target
       (results (_submit_files Demo.env Demo.settings ["/tmp/a.exe"; "/tmp/dir"])
                Demo.start)
     = ["/tmp/a.exe"; "/tmp/dir/x"; "/tmp/dir/y"].
Proof.
  split; [reflexivity|].
  apply (proj2 (proj2 (dispatcher_one_result_per_unit Demo.env Demo.settings
                         ["/tmp/a.exe"; "/tmp/dir"] Demo.start))).
  reflexivity.
Defined.

(** C3 at work: two existing targets around a missing one, one platform. *)
Lemma submit_notifies_exactly_once_demo :
  notifications
    (emitted (submission Demo.env ["/tmp/a.exe"; "/missing"; "/tmp/dir"] false
                         ["windows,10"] 120 1) Demo.start) = 1.
Proof.
  apply (submit_notifies_exactly_once Demo.env
           ["/tmp/a.exe"; "/missing"; "/tmp/dir"] false ["windows,10"] 120 1
           Demo.start
           (mkSettings 120 1 false [mkPlatform "windows" (Some "10")]) 0);
    reflexivity.
Defined.

(** C4 at work: the collaborator rejects the second of three units. *)
Lemma submission_error_is_isolated_demo :
  exists submitted,
    results (_submit_files Demo.env Demo.settings ["/tmp/a.exe"; "/tmp/dir"])
            Demo.start = submitted
    /\ length submitted = 3
    /\ nth_error submitted 1
       = Some (mkResult None "/tmp/dir/x" (Some (ErrSubmission "rejected"))).
Proof.
  destruct (proj2 (proj2 (submission_error_is_isolated Demo.env Demo.settings
                            ["/tmp/a.exe"; "/tmp/dir"] Demo.start)))
    as (submitted & Hall & Hlen & Hfail).
  exists submitted. split; [exact Hall|]. split; [exact Hlen|].
  apply (Hfail 1 "/tmp/dir/x" "rejected"); reflexivity.
Defined.

(** C7 at work: the working directory of the installation exists. *)
Lemma createcwd_refuses_existing_path_demo :
  create_cwd Demo.env (mkCtx (Some "/cwd") None (Some "createcwd")) false false
             Demo.start
  = (Raised (SystemExit 1),
     mkState 0 [] [EvIsDir "/cwd"; EvPrintError "Path /cwd already exists."]).
Proof.
  apply (createcwd_refuses_existing_path Demo.env
           (mkCtx (Some "/cwd") None (Some "createcwd")) "/cwd" Demo.start);
    reflexivity.
Defined.

(** C7 as first stated does not hold: ["/tmp/a.exe"] exists, as a regular
    file, and [createcwd] without the two flags does not refuse it -- the
    guard is on [os.path.isdir], so the command goes on to
    [cuckoocwd.create], and what ends it is whatever that call raises, not
    the "already exists" exit. *)
Lemma createcwd_does_not_refuse_an_existing_file :
  os_path_exists Demo.env (world Demo.start) "/tmp/a.exe" = true
  /\ os_path_isdir Demo.env (world Demo.start) "/tmp/a.exe" = false
  /\ create_cwd Demo.env (mkCtx (Some "/tmp/a.exe") None (Some "createcwd"))
                false false Demo.start
     = (Raised (Unhandled "File exists"),
        mkState 0 [] [EvIsDir "/tmp/a.exe"; EvCwdCreate "/tmp/a.exe"])
  /\ create_cwd Demo.env (mkCtx (Some "/tmp/a.exe") None (Some "createcwd"))
                false false Demo.start
     <> (Raised (SystemExit 1),
         mkState 0 [] [EvIsDir "/tmp/a.exe";
                       EvPrintError "Path /tmp/a.exe already exists."])
  /\ ~ (forall (parent : Ctx) (path : string) (s : State (World Demo.env)),
          cwd_path parent = Some path ->
          os_path_exists Demo.env (world s) path = true ->
          create_cwd Demo.env parent false false s
          = (Raised (SystemExit 1),
             mkState (world s) (registry s)
               (trace s
                ++ [EvIsDir path;
                    EvPrintError ("Path " ++ path ++ " already exists.")]))).
Proof.
  split; [reflexivity|]. split; [reflexivity|]. split; [reflexivity|].
  split; [discriminate|].
  intros Hclaim.
  specialize (Hclaim (mkCtx (Some "/tmp/a.exe") None (Some "createcwd"))
                     "/tmp/a.exe" Demo.start eq_refl eq_refl).
  discriminate Hclaim.
Qed.

(** C8 at work: the controller fails to start, the import controller
    starts. *)
Lemma shutdown_actions_run_once_on_exit_demo :
  exits_cleanly Demo.env
    (main Demo.env (mkCtx None None None) None true false false false)
    Demo.start
    [(StopMsg "Stopping Cuckoo..", 1%Z); (SubsystemStop "controller", 0%Z)]
    (Some "no nodes") "Failure during Cuckoo startup: "
  /\ exits_cleanly Demo.env
       (importmode Demo.env (mkCtx None None None)
                   (mkCtx (Some "/cwd") (Some 20%Z) (Some "importmode")))
       Demo.start
       [(StopMsg "Stopping import mode..", 1%Z)]
       None "Failure during import mode startup: ".
Proof.
  split.
  - apply (proj1 (shutdown_actions_run_once_on_exit Demo.env)
             (mkCtx None None None) None true false false false Demo.start 0);
      reflexivity.
  - apply (proj2 (shutdown_actions_run_once_on_exit Demo.env)
             (mkCtx None None None)
             (mkCtx (Some "/cwd") (Some 20%Z) (Some "importmode")) 20%Z
             Demo.start);
      reflexivity.
Defined.

(** ** Further properties of the submission generators *)

Section MoreProperties.

Variable E : Env.

Lemma drain_files_events settings targets (s : State (World E)) :
  emitted (drain (_submit_files E settings targets)) s
  = resolve_events E (fun _ => []) (world s) targets
    ++ unit_events (fun u => EvSubmitFile u settings (basename u)) (fun _ => [])
         (resolved_units E (world s) targets)
         (fst (file_answers E settings (resolved_units E (world s) targets)
                 (world s))).
Proof.
  unfold drain. eapply emitted_eq. apply (files_run E _ _ logs_only_drain).
Qed.

Lemma drain_urls_events settings targets (s : State (World E)) :
  emitted (drain (_submit_urls E settings targets)) s
  = unit_events (fun u => EvSubmitUrl u settings) (fun _ => []) targets
      (fst (url_answers E settings targets (world s))).
Proof.
  unfold drain, for_in. eapply emitted_eq.
  apply (urls_run E _ _ logs_only_drain).
Qed.

Lemma filter_unit_events (P : event -> bool) ev
    (Hyield : forall r, P (EvYield r) = false) :
  forall units a,
    length a = length units ->
    filter P (unit_events ev (fun _ => []) units a)
    = filter P (map ev units).
Proof.
  induction units as [|u us IH]; intros [|x xs] Hlen; simpl in *;
    try discriminate; auto.
  rewrite Hyield, IH by lia. reflexivity.
Qed.

Lemma filter_all {A} (P : A -> bool) l :
  (forall x, P x = true) -> filter P l = l.
Proof.
  intros H. induction l as [|x l IH]; simpl; auto. now rewrite H, IH.
Qed.

Lemma filter_none {A} (P : A -> bool) l :
  (forall x, In x l -> P x = false) -> filter P l = [].
Proof.
  intros H. induction l as [|x l IH]; simpl; auto.
  rewrite (H x) by now left. apply IH. intros y Hy. apply H. now right.
Qed.

Lemma filter_map_all {A} (P : event -> bool) (ev : A -> event) l :
  (forall u, P (ev u) = true) -> filter P (map ev l) = map ev l.
Proof.
  intros H. induction l as [|x l IH]; simpl; auto. now rewrite H, IH.
Qed.

Lemma filter_map_none {A} (P : event -> bool) (ev : A -> event) l :
  (forall u, P (ev u) = false) -> filter P (map ev l) = [].
Proof.
  intros H. induction l as [|x l IH]; simpl; auto. now rewrite H.
Qed.

Lemma resolve_events_drain_queries w targets :
  filter is_disk_query (resolve_events E (fun _ => []) w targets)
  = flat_map (fun p => [EvExists p; EvEnumerate p]) targets
  /\ filter is_submit_call (resolve_events E (fun _ => []) w targets) = [].
Proof.
  unfold resolve_events.
  induction targets as [|p ts [IHq IHs]]; simpl; auto.
  destruct (os_path_exists E w p); simpl; rewrite IHq, IHs; auto.
Qed.

(** X1: [_submit_files] works in two phases.  First every raw target, in
    input order, is checked and then enumerated, and the missing ones get
    their result; only then come the calls of [submit.file], one per
    resolved unit, in order -- no file is submitted before the last target
    has been enumerated, and the disk is not looked at again. *)
Theorem submit_files_resolves_before_submitting (settings : Settings)
    (targets : list string) (s : State (World E)) :
  exists pre post,
    emitted (drain (_submit_files E settings targets)) s = pre ++ post
    /\ filter is_disk_query pre
       = flat_map (fun p => [EvExists p; EvEnumerate p]) targets
    /\ filter is_submit_call pre = []
    /\ yields pre = map not_found (missing_targets E (world s) targets)
    /\ filter is_disk_query post = []
    /\ filter is_submit_call post
       = map (fun u => EvSubmitFile u settings (basename u))
             (resolved_units E (world s) targets).
Proof.
  do 2 eexists. split; [apply drain_files_events|].
  pose proof (resolve_events_drain_queries (world s) targets) as [Hq Hs].
  repeat split; auto.
  - now apply yields_resolve_events.
  - rewrite filter_unit_events by (auto; apply answers_length).
    now apply filter_map_none.
  - rewrite filter_unit_events by (auto; apply answers_length).
    now apply filter_map_all.
Qed.

(** X2: [_submit_urls] never looks at the disk and never calls
    [submit.file]: its trace is, per raw URL and in input order, one call of
    [submit.url] with the shared settings followed by one yield. *)
Theorem submit_urls_only_calls_submit_url (settings : Settings)
    (targets : list string) (s : State (World E)) :
  let t := emitted (drain (_submit_urls E settings targets)) s in
  filter is_submit_call t = map (fun u => EvSubmitUrl u settings) targets
  /\ filter is_disk_query t = []
  /\ length t = 2 * length targets
  /\ length (yields t) = length targets.
Proof.
  simpl. rewrite drain_urls_events.
  repeat split.
  - rewrite filter_unit_events by (auto; apply answers_length).
    now apply filter_map_all.
  - rewrite filter_unit_events by (auto; apply answers_length).
    now apply filter_map_none.
  - pose proof (answers_length E (fun u => submit_url E u settings) targets
                  (world s)) as Hlen.
    unfold url_answers.
    revert Hlen. generalize (fst (answers E (fun u => submit_url E u settings)
                                    targets (world s))).
    induction targets as [|u us IH]; intros [|x xs] Hlen; simpl in *;
      try discriminate; auto.
    rewrite IH by lia. lia.
  - rewrite yields_unit_events by reflexivity.
    apply zip_results_length, answers_length.
Qed.

Lemma last_in {A} (l : list A) d : l <> [] -> In (last l d) l.
Proof.
  induction l as [|x l IH]; intros H; [contradiction|].
  destruct l as [|y l]; [now left|].
  right. apply IH. discriminate.
Qed.

Lemma basename_no_slash p : contains "/" (basename p) = false.
Proof.
  unfold basename.
  pose proof (split_pieces_clean "/" p) as Hclean.
  rewrite Forall_forall in Hclean. apply Hclean.
  apply last_in, split_not_nil.
Qed.

Lemma string_app_assoc (a b c : string) :
  ((a ++ b) ++ c = a ++ (b ++ c))%string.
Proof. induction a as [|x a IH]; simpl; auto. now rewrite IH. Qed.

Lemma last_char_app a b :
  b <> EmptyString -> last_char (a ++ b) = last_char b.
Proof.
  intros Hb. induction a as [|x a IH]; simpl; auto.
  rewrite IH. destruct (a ++ b)%string eqn:Heq; auto.
  destruct a; simpl in Heq; [contradiction|discriminate].
Qed.

Lemma join_last sep pieces :
  pieces <> [] ->
  exists dir,
    join (String sep EmptyString) pieces = (dir ++ last pieces EmptyString)%string
    /\ (dir = EmptyString \/ last_char dir = Some sep).
Proof.
  induction pieces as [|p ps IH]; intros Hnil; [contradiction|].
  destruct ps as [|q qs].
  - exists EmptyString. split; auto.
  - destruct IH as (dir & Hjoin & Hdir); [discriminate|].
    exists (p ++ String sep EmptyString ++ dir)%string. split.
    + change (join (String sep EmptyString) (p :: q :: qs))
        with (p ++ String sep EmptyString
                ++ join (String sep EmptyString) (q :: qs))%string.
      rewrite Hjoin.
      change (last (p :: q :: qs) EmptyString) with (last (q :: qs) EmptyString).
      now rewrite !string_app_assoc.
    + right.
      change (String sep EmptyString ++ dir)%string with (String sep dir).
      rewrite last_char_app by discriminate.
      destruct Hdir as [->|Hlast]; [reflexivity|].
      destruct dir; [discriminate|exact Hlast].
Qed.

Lemma basename_suffix p :
  exists dir,
    p = (dir ++ basename p)%string
    /\ (dir = EmptyString \/ last_char dir = Some "/"%char).
Proof.
  destruct (join_last "/" (split "/" p) (split_not_nil _ _)) as (dir & Hjoin & Hdir).
  rewrite join_split in Hjoin. now exists dir.
Qed.

(** X3: every call [_submit_files] makes to the submission collaborator is a
    [submit.file] call with the shared settings, and the file name it passes
    is what follows the last slash of the path: it contains no slash, and
    the path is that name behind a prefix that is empty or ends in a
    slash. *)
Theorem submit_file_gets_the_base_name (settings : Settings)
    (targets : list string) (s : State (World E)) :
  Forall (good_file_call settings)
         (emitted (drain (_submit_files E settings targets)) s).
Proof.
  rewrite drain_files_events. apply Forall_app. split.
  - unfold resolve_events. apply Forall_forall. intros e He.
    apply in_flat_map in He. destruct He as (p & _ & He).
    destruct (os_path_exists E (world s) p); simpl in He;
      repeat (destruct He as [<-|He]; [exact I|]); contradiction.
  - generalize (fst (file_answers E settings
                       (resolved_units E (world s) targets) (world s))).
    induction (resolved_units E (world s) targets) as [|u us IH];
      intros [|x xs]; simpl; auto.
    constructor; [|constructor; [exact I|apply IH]].
    split; [reflexivity|]. split; [apply basename_no_slash|].
    apply basename_suffix.
Qed.

Lemma answers_app submit a b :
  forall w,
    answers E submit (a ++ b) w
    = (fst (answers E submit a w)
       ++ fst (answers E submit b (snd (answers E submit a w))),
       snd (answers E submit b (snd (answers E submit a w)))).
Proof.
  induction a as [|u a IH]; intros w; simpl.
  - now destruct (answers E submit b w).
  - destruct (submit u w) as [x w1]. rewrite IH.
    destruct (answers E submit a w1) as [la w2]. simpl.
    now destruct (answers E submit b w2).
Qed.

Lemma zip_results_app a b :
  forall la lb,
    length la = length a ->
    zip_results (a ++ b) (la ++ lb) = zip_results a la ++ zip_results b lb.
Proof.
  induction a as [|u a IH]; intros [|x la] lb Hlen; simpl in *;
    try discriminate; auto.
  rewrite IH by lia. reflexivity.
Qed.

(** X4: submitting URLs composes: the results for a list of URLs followed
    by another are the results for the first list, then the results for the
    second list submitted from the state the first left the collaborator in.
    A URL given twice is therefore submitted twice. *)
Theorem submit_urls_composes (settings : Settings) (a b : list string)
    (s : State (World E)) :
  results (_submit_urls E settings (a ++ b)) s
  = results (_submit_urls E settings a) s
    ++ results (_submit_urls E settings b)
               (snd (drain (_submit_urls E settings a) s)).
Proof.
  rewrite !results_urls. unfold url_answers.
  rewrite answers_app. simpl.
  rewrite zip_results_app by apply answers_length.
  f_equal. f_equal. f_equal.
  unfold drain, for_in.
  now rewrite (urls_run E _ _ logs_only_drain).
Qed.

(** X5: a unit the submission collaborator accepts gets the result that
    carries the identifier the collaborator returned for it, and no error --
    for both kinds, at the position of the unit. *)
Theorem accepted_unit_gets_its_identifier (settings : Settings)
    (targets : list string) (s : State (World E)) :
  (forall i u a,
      nth_error targets i = Some u ->
      nth_error (fst (url_answers E settings targets (world s))) i
      = Some (inl a) ->
      nth_error (results (_submit_urls E settings targets) s) i
      = Some (mkResult (Some a) u None))
  /\ (let units := resolved_units E (world s) targets in
      let missing := missing_targets E (world s) targets in
      forall i u a,
        nth_error units i = Some u ->
        nth_error (fst (file_answers E settings units (world s))) i
        = Some (inl a) ->
        nth_error (results (_submit_files E settings targets) s)
                  (length missing + i)
        = Some (mkResult (Some a) u None)).
Proof.
  split.
  - intros i u a Hu Ha. rewrite results_urls.
    now rewrite (nth_error_zip_results _ _ _ _ _ Hu Ha).
  - simpl. intros i u a Hu Ha.
    pose proof (results_files E settings targets s) as Hf. simpl in Hf.
    rewrite Hf, nth_error_app2 by (rewrite length_map; lia).
    rewrite length_map.
    replace (length (missing_targets E (world s) targets) + i
             - length (missing_targets E (world s) targets)) with i by lia.
    now rewrite (nth_error_zip_results _ _ _ _ _ Hu Ha).
Qed.

(** ** Further properties of [submit] *)

(** X6: [submit] either runs to its end or stops before it has touched any
    target: when it does not end normally it exits with status 1, and all it
    did is hand the machines dump path to the settings maker and print one
    "Submission failed: ..." line -- no target was looked at or submitted,
    and no notification was sent. *)
Theorem submit_fails_only_before_dispatch (target : list string) (url : bool)
    (platform_ : list string) (timeout_ priority_ : Z) (s : State (World E)) :
  let run := submission E target url platform_ timeout_ priority_ in
  fst (run s) = Normal tt
  \/ (fst (run s) = Raised (SystemExit 1)
      /\ exists msg,
           emitted run s
           = [EvSetMachinesdump (Paths_machinestates E (world s));
              EvPrintError ("Submission failed: " ++ msg)]).
Proof.
  simpl.
  pose proof (submission_run E target url platform_ timeout_ priority_ s) as Hrun.
  cbv zeta in Hrun.
  destruct (set_machinesdump_path E _ (world s)) as [[msg|] w1].
  - right. rewrite (emitted_eq _ _ _ _ _ _ Hrun), Hrun.
      split; [reflexivity|now exists msg].
  - destruct (make_settings _ _) as [settings|msg].
    + left. rewrite Hrun, submission_dispatch_run. reflexivity.
    + right. rewrite (emitted_eq _ _ _ _ _ _ Hrun), Hrun.
      split; [reflexivity|now exists msg].
Qed.

Lemma report_events_line kind r :
  truthy (res_error r) = is_some (res_error r) ->
  report_events kind r = [result_line kind r].
Proof.
  unfold report_events, result_line. intros ->.
  now destruct (res_error r).
Qed.

Lemma reported_unit_events ev kind
    (Hev : forall u, is_yield_or_printed (ev u) = false) :
  forall units a,
    filter is_yield_or_printed (unit_events ev (report_events kind) units a)
    = flat_map (fun r => [EvYield r; result_line kind r]) (zip_results units a).
Proof.
  induction units as [|u us IH]; intros [|x xs]; simpl; auto.
  rewrite Hev. rewrite filter_app, IH.
  rewrite (report_events_line kind (outcome_result u x))
    by (destruct x; reflexivity).
  simpl. unfold result_line.
  now destruct (res_error (outcome_result u x)).
Qed.

Lemma reported_resolve_events kind w targets :
  filter is_yield_or_printed (resolve_events E (report_events kind) w targets)
  = flat_map (fun r => [EvYield r; result_line kind r])
             (map not_found (missing_targets E w targets)).
Proof.
  unfold resolve_events, missing_targets.
  induction targets as [|p ts IH]; [reflexivity|].
  cbn [flat_map]. rewrite filter_app, IH. cbn [filter].
  destruct (os_path_exists E w p); reflexivity.
Qed.

Lemma flat_map_yields (f : SubmissionResult -> event)
    (Hf : forall r, yields [f r] = []) l :
  yields (flat_map (fun r => [EvYield r; f r]) l) = l.
Proof.
  induction l as [|r l IH]; simpl; auto.
  specialize (Hf r). simpl in Hf.
  destruct (f r); try discriminate; now rewrite IH.
Qed.

Lemma yields_filter t : yields (filter is_yield_or_printed t) = yields t.
Proof.
  induction t as [|e t IH]; simpl; auto.
  destruct e; simpl; auto. now rewrite IH.
Qed.

(** X7: in the result loop of [submit] every yielded tuple is reported by
    exactly one line, printed right after it: an error line "Failed to
    submit ..." for every tuple that carries an error and an info line
    "Submitted ..." for every other, with "URL" or "file" by the [--url]
    flag; after them comes at most the warning of a failed notification.
    No failed unit is ever reported as submitted. *)
Theorem submit_reports_each_result_once (settings : Settings) (url : bool)
    (target : list string) (s : State (World E)) :
  let t := emitted (submission_dispatch E settings url target) s in
  let kind := if url then "URL" else "file" in
  exists warning,
    filter is_yield_or_printed t
    = flat_map (fun r => [EvYield r; result_line kind r]) (yields t) ++ warning
    /\ (warning = [] \/ exists msg, warning = [EvPrintWarning msg]).
Proof.
  intros t kind.
  assert (Hloop : exists evs rs,
             emitted (for_in ((if url then _submit_urls E else _submit_files E)
                                settings target)
                             (report E (if url then "URL" else "file"))) s = evs
             /\ filter is_yield_or_printed evs
                = flat_map (fun r => [EvYield r; result_line kind r]) rs).
  { unfold kind. destruct url.
    - do 2 eexists. split; [reflexivity|].
      erewrite emitted_eq
        by (unfold for_in; apply (urls_run E _ _ (logs_only_report E "URL"))).
      now apply reported_unit_events.
    - do 2 eexists. split; [reflexivity|].
      erewrite emitted_eq by apply (files_run E _ _ (logs_only_report E "file")).
      rewrite filter_app, reported_resolve_events, reported_unit_events
        by reflexivity.
      rewrite <- flat_map_app. reflexivity. }
  destruct Hloop as (evs & rs & Hevs & Hfilter).
  pose proof (submission_dispatch_run E settings url target s) as Hrun.
  cbv zeta in Hrun. rewrite Hevs in Hrun.
  apply emitted_eq in Hrun. fold t in Hrun.
  set (warning := match fst (submit_notify E _) with
                  | Some msg => [EvPrintWarning msg]
                  | None => []
                  end) in Hrun.
  assert (Hyields : yields t = rs).
  { rewrite Hrun, yields_app. simpl.
    rewrite <- (yields_filter evs), Hfilter.
    replace (yields warning) with (@nil SubmissionResult)
      by (unfold warning; now destruct (fst (submit_notify E _))).
    rewrite app_nil_r. apply flat_map_yields.
    intros r. unfold result_line. now destruct (res_error r). }
  exists warning. split.
  - rewrite Hyields, Hrun, filter_app, Hfilter. simpl. f_equal.
    unfold warning. now destruct (fst (submit_notify E _)).
  - unfold warning. destruct (fst (submit_notify E _)); eauto.
Qed.

(** ** Further properties of [machine add] *)

Lemma contains_app c a b :
  contains c (a ++ b) = contains c a || contains c b.
Proof.
  induction a as [|x a IH]; simpl; auto. now rewrite IH, orb_assoc.
Qed.

Lemma string_app_nil_r (a : string) : (a ++ EmptyString)%string = a.
Proof. induction a as [|x a IH]; simpl; auto. now rewrite IH. Qed.

Lemma chars_app a b :
  list_ascii_of_string (a ++ b)
  = list_ascii_of_string a ++ list_ascii_of_string b.
Proof. induction a as [|x a IH]; simpl; auto. now rewrite IH. Qed.

Lemma all_space_app a b :
  all_space (a ++ b) = all_space a && all_space b.
Proof. unfold all_space. now rewrite chars_app, forallb_app. Qed.

Lemma strip_keeps_clean c p :
  contains c p = false -> contains c (strip p) = false.
Proof.
  intros H. destruct (strip_spec p) as (l & r & Hp & _).
  rewrite Hp, !contains_app in H.
  apply orb_false_iff in H. destruct H as [_ H].
  apply orb_false_iff in H. now destruct H.
Qed.

Lemma strip_fixed t :
  not_space (first_char t) = true -> not_space (last_char t) = true ->
  strip t = t.
Proof.
  intros Hf Hl. apply (strip_unique t EmptyString t EmptyString); auto.
  simpl. now rewrite string_app_nil_r.
Qed.

Lemma strip_blank p : all_space p = true -> strip p = EmptyString.
Proof.
  intros H. unfold strip. now rewrite (lstrip_all_space _ H).
Qed.

Lemma strip_empty_blank p : strip p = EmptyString -> all_space p = true.
Proof.
  intros H. destruct (strip_spec p) as (l & r & Hp & Hl & Hr & _).
  rewrite H in Hp. rewrite Hp. simpl. now rewrite all_space_app, Hl, Hr.
Qed.

Lemma machine_tags_clean tags :
  Forall (fun t => clean_tag t = true) (machine_tags tags).
Proof.
  unfold machine_tags. apply Forall_forall. intros t Ht.
  apply filter_In in Ht. destruct Ht as [Ht Hne].
  apply in_map_iff in Ht. destruct Ht as (p & <- & Hp).
  pose proof (split_pieces_clean "," tags) as Hclean.
  rewrite Forall_forall in Hclean. specialize (Hclean p Hp).
  destruct (strip_spec p) as (l & r & _ & _ & _ & Hfirst & Hlast).
  unfold clean_tag.
  now rewrite Hne, (strip_keeps_clean _ _ Hclean), Hfirst, Hlast.
Qed.

Lemma clean_tag_parts t :
  clean_tag t = true ->
  nonempty t = true /\ contains "," t = false
  /\ not_space (first_char t) = true /\ not_space (last_char t) = true.
Proof.
  unfold clean_tag. intros H.
  apply andb_true_iff in H. destruct H as [H Hl].
  apply andb_true_iff in H. destruct H as [H Hf].
  apply andb_true_iff in H. destruct H as [Hn Hc].
  apply negb_true_iff in Hc. auto.
Qed.

(** X8: the tags [machine add] passes on are always well formed -- none is
    empty, none contains a comma, none starts or ends with white space --
    and a list of well-formed tags goes through the [--tags] option
    unchanged: joined with commas and given as the option, it is the list
    [add_machine] receives. *)
Theorem machine_tags_round_trip (tags : string) (ts : list string) :
  Forall (fun t => clean_tag t = true) (machine_tags tags)
  /\ (Forall (fun t => clean_tag t = true) ts ->
      machine_tags (join "," ts) = ts).
Proof.
  split; [apply machine_tags_clean|].
  intros Hclean. destruct ts as [|t ts]; [reflexivity|].
  unfold machine_tags.
  rewrite <- (split_unique "," (t :: ts) (join "," (t :: ts)));
    [|discriminate| |reflexivity].
  - induction Hclean as [|x l Hx _ IH]; [reflexivity|].
    apply clean_tag_parts in Hx. destruct Hx as (Hn & _ & Hf & Hl).
    cbn [map filter]. rewrite (strip_fixed _ Hf Hl), Hn. now rewrite IH.
  - eapply Forall_impl; [|exact Hclean].
    intros x Hx. now apply clean_tag_parts in Hx.
Qed.

Lemma split_blank t :
  blank t = true -> Forall (fun p => all_space p = true) (split "," t).
Proof.
  unfold blank. induction t as [|c r IH]; simpl; intros H.
  - now repeat constructor.
  - apply andb_true_iff in H. destruct H as [Hc Hr]. specialize (IH Hr).
    destruct (Ascii.eqb c ",") eqn:Hcomma.
    + now constructor.
    + rewrite orb_false_r in Hc.
      destruct (split "," r) as [|q qs].
      * repeat constructor. unfold all_space. simpl. now rewrite Hc.
      * inversion IH; subst. constructor; auto.
        unfold all_space in *. simpl. now rewrite Hc.
Qed.

Lemma blank_join pieces :
  Forall (fun p => all_space p = true) pieces ->
  blank (join "," pieces) = true.
Proof.
  assert (Hspace : forall p, all_space p = true -> blank p = true).
  { unfold all_space, blank. intros p Hp.
    rewrite forallb_forall in *. intros c Hc. now rewrite (Hp c Hc). }
  induction 1 as [|p ps Hp _ IH]; [reflexivity|].
  destruct ps as [|q qs]; [now apply Hspace|].
  change (join "," (p :: q :: qs))
    with (p ++ String "," (join "," (q :: qs)))%string.
  unfold blank in *. rewrite chars_app, forallb_app.
  apply Hspace in Hp. unfold blank in Hp. rewrite Hp. simpl. exact IH.
Qed.

(** X9: [machine add] passes on no tag at all exactly when [--tags] holds
    nothing but white space and commas -- the default empty string
    included. *)
Theorem no_tags_iff_blank (tags : string) :
  machine_tags tags = [] <-> blank tags = true.
Proof.
  unfold machine_tags. split.
  - intros Hnone. rewrite <- (join_split "," tags). apply blank_join.
    apply Forall_forall. intros p Hp. apply strip_empty_blank.
    destruct (strip p) eqn:Hs; [reflexivity|].
    assert (Hin : In (strip p) (filter nonempty (map strip (split "," tags)))).
    { apply filter_In. split; [now apply in_map|]. now rewrite Hs. }
    rewrite Hnone in Hin. contradiction.
  - intros Hblank. apply split_blank in Hblank.
    induction Hblank as [|p ps Hp _ IH]; [reflexivity|].
    cbn [map filter]. now rewrite (strip_blank _ Hp).
Qed.

(** ** Further properties of [main] *)

(** [main], case by case. *)
Lemma main_cases (ctx : Ctx) (cwd : option string)
    (distributed debug quiet verbose : bool) (s : State (World E)) :
  let dir := chosen_cwd E cwd in
  let level := chosen_level (VERBOSE E) debug quiet verbose in
  let mode := if distributed then Controller else Standalone in
  main E ctx cwd distributed debug quiet verbose s
  = if negb (cuckoocwd_exists E (world s) dir) then
      if opt_eqb (invoked_subcommand ctx) "createcwd"
      then (Normal (mkCtx (Some dir) (loglevel ctx) (invoked_subcommand ctx)),
            mkState (world s) (registry s) (trace s ++ [EvCwdExists dir]))
      else (Raised (SystemExit 1),
            mkState (world s) (registry s)
              (trace s ++ [EvCwdExists dir;
                           EvPrintError (missing_cwd_message dir)]))
    else
      match cuckoocwd_set E dir (world s) with
      | (Some msg, w1) =>
          (Raised (SystemExit 1),
           mkState w1 (registry s)
             (trace s ++ [EvCwdExists dir; EvCwdSet dir;
                          EvPrintError ("Invalid Cuckoo working directory: "
                                        ++ msg)]))
      | (None, w1) =>
          let parent := mkCtx (Some dir) (Some level) (invoked_subcommand ctx) in
          let monitor := Paths_monitor E w1 in
          if truthy_str (invoked_subcommand ctx)
          then (Normal parent,
                mkState w1 (registry s)
                  (trace s ++ [EvCwdExists dir; EvCwdSet dir]))
          else if negb (os_path_exists E w1 monitor)
          then (Raised (SystemExit 1),
                mkState w1 (registry s)
                  (trace s ++ [EvCwdExists dir; EvCwdSet dir; EvExists monitor;
                               EvPrintError missing_monitor_message]))
          else
            let r := (if distributed then start_cuckoo_controller E
                      else start_cuckoo E) level w1 in
            (match run_failure r with
             | None => Normal parent
             | Some _ => Raised (SystemExit 1)
             end,
             mkState (run_world r) []
               (trace s
                ++ EvCwdExists dir :: EvCwdSet dir :: EvExists monitor
                :: EvStart mode level
                :: match run_failure r with
                   | None => []
                   | Some msg =>
                       [EvPrintError ("Failure during Cuckoo startup: " ++ msg)]
                   end
                ++ action_events
                     (map fst (sort_by_order
                                 (registry s
                                  ++ (StopMsg "Stopping Cuckoo..", 1%Z)
                                  :: run_registered r)))))
      end.
Proof.
  intros dir level mode. unfold main. fold (chosen_cwd E cwd). fold dir. step.
  destruct (cuckoocwd_exists E (world s) dir); simpl.
  - unfold main_configure. step.
    destruct (cuckoocwd_set E dir (world s)) as [[msg|] w1]; simpl.
    + now flatten.
    + destruct (truthy_str (invoked_subcommand ctx)); simpl.
      * now flatten.
      * unfold main_run. step.
        destruct (os_path_exists E w1 (Paths_monitor E w1)); simpl.
        -- unfold mode. destruct distributed; simpl.
           ++ use_guarded_start
                (guarded_start_run E Controller (start_cuckoo_controller E)
                   (chosen_level (VERBOSE E) debug quiet verbose)
                   "Stopping Cuckoo.." "Failure during Cuckoo startup: "
                   (mkState w1 (registry s)
                      (((trace s ++ [EvCwdExists dir]) ++ [EvCwdSet dir])
                       ++ [EvExists (Paths_monitor E w1)]))).
              destruct (run_failure _); simpl; flatten; reflexivity.
           ++ use_guarded_start
                (guarded_start_run E Standalone (start_cuckoo E)
                   (chosen_level (VERBOSE E) debug quiet verbose)
                   "Stopping Cuckoo.." "Failure during Cuckoo startup: "
                   (mkState w1 (registry s)
                      (((trace s ++ [EvCwdExists dir]) ++ [EvCwdSet dir])
                       ++ [EvExists (Paths_monitor E w1)]))).
              destruct (run_failure _); simpl; flatten; reflexivity.
        -- now flatten.
  - destruct (opt_eqb (invoked_subcommand ctx) "createcwd"); simpl.
    + reflexivity.
    + now flatten.
Qed.

(** X10: when the working directory does not exist, [main] goes on for
    [createcwd] only: it returns with [ctx.cwd_path] set, having neither
    set the directory as current nor chosen a log level; for every other
    subcommand, and for none, it prints where to find [createcwd] and exits
    with status 1.  Either way the existence question is all it asked. *)
Theorem main_without_working_directory (ctx : Ctx) (cwd : option string)
    (distributed debug quiet verbose : bool) (s : State (World E)) :
  let dir := chosen_cwd E cwd in
  let run := main E ctx cwd distributed debug quiet verbose in
  cuckoocwd_exists E (world s) dir = false ->
  if opt_eqb (invoked_subcommand ctx) "createcwd"
  then run s
       = (Normal (mkCtx (Some dir) (loglevel ctx) (invoked_subcommand ctx)),
          mkState (world s) (registry s) (trace s ++ [EvCwdExists dir]))
  else run s
       = (Raised (SystemExit 1),
          mkState (world s) (registry s)
            (trace s ++ [EvCwdExists dir;
                         EvPrintError (missing_cwd_message dir)])).
Proof.
  intros dir run Hmissing. unfold run. rewrite main_cases. fold dir.
  rewrite Hmissing. simpl.
  now destruct (opt_eqb (invoked_subcommand ctx) "createcwd").
Qed.

(** X11: [main] starts a subsystem only when it is ready -- the working
    directory exists and is accepted, no subcommand was invoked, the
    monitor binaries are present -- and then exactly one: the controller
    with [--distributed], Cuckoo itself otherwise, at the log level of the
    flags.  When it is not ready nothing is started, no shutdown action is
    registered or run. *)
Theorem main_starts_only_when_ready (ctx : Ctx) (cwd : option string)
    (distributed debug quiet verbose : bool) (s : State (World E)) :
  let run := main E ctx cwd distributed debug quiet verbose in
  let level := chosen_level (VERBOSE E) debug quiet verbose in
  let mode := if distributed then Controller else Standalone in
  if main_ready E ctx cwd (world s)
  then filter is_start (emitted run s) = [EvStart mode level]
  else filter is_start (emitted run s) = []
       /\ shutdown_calls (emitted run s) = []
       /\ registry (snd (run s)) = registry s.
Proof.
  intros run level mode.
  pose proof (main_cases ctx cwd distributed debug quiet verbose s) as Hrun.
  cbv zeta in Hrun. fold run in Hrun. unfold main_ready.
  destruct (cuckoocwd_exists E (world s) (chosen_cwd E cwd)); simpl in *.
  - destruct (cuckoocwd_set E (chosen_cwd E cwd) (world s)) as [[msg|] w1].
    + rewrite (emitted_eq _ _ _ _ _ _ Hrun), Hrun. now repeat split.
    + destruct (truthy_str (invoked_subcommand ctx)); simpl in *.
      * rewrite (emitted_eq _ _ _ _ _ _ Hrun), Hrun. now repeat split.
      * destruct (os_path_exists E w1 (Paths_monitor E w1)); simpl in *.
        -- rewrite (emitted_eq _ _ _ _ _ _ Hrun). simpl. f_equal.
           rewrite filter_app.
           replace (filter is_start (action_events _)) with (@nil event).
           ++ now destruct (run_failure _).
           ++ symmetry. apply filter_none. intros e He.
              unfold action_events in He. apply in_flat_map in He.
              destruct He as (a & _ & He).
              destruct a; simpl in He;
                repeat (destruct He as [<-|He]; [reflexivity|]);
                contradiction.
        -- rewrite (emitted_eq _ _ _ _ _ _ Hrun), Hrun. now repeat split.
  - destruct (opt_eqb (invoked_subcommand ctx) "createcwd");
      rewrite (emitted_eq _ _ _ _ _ _ Hrun), Hrun; now repeat split.
Qed.

(** X12: with a subcommand invoked on a working directory that exists and
    is accepted, [main] only sets the directory as current and leaves the
    context for the subcommand: the directory, and the log level by the
    first of [--verbose], [--debug], [--quiet] that is given, INFO
    otherwise.  The monitor binaries are not asked for. *)
Theorem main_prepares_the_subcommand (ctx : Ctx) (cwd : option string)
    (distributed debug quiet verbose : bool) (s : State (World E))
    (w1 : World E) :
  let dir := chosen_cwd E cwd in
  let level := chosen_level (VERBOSE E) debug quiet verbose in
  cuckoocwd_exists E (world s) dir = true ->
  cuckoocwd_set E dir (world s) = (None, w1) ->
  truthy_str (invoked_subcommand ctx) = true ->
  main E ctx cwd distributed debug quiet verbose s
  = (Normal (mkCtx (Some dir) (Some level) (invoked_subcommand ctx)),
     mkState w1 (registry s) (trace s ++ [EvCwdExists dir; EvCwdSet dir]))
  /\ (verbose = true -> level = VERBOSE E)
  /\ (verbose = false -> debug = true -> level = 10%Z)
  /\ (verbose = false -> debug = false -> quiet = true -> level = 30%Z)
  /\ (verbose = false -> debug = false -> quiet = false -> level = 20%Z).
Proof.
  intros dir level Hexists Hset Hsub. split.
  - rewrite main_cases. fold dir. now rewrite Hexists, Hset, Hsub.
  - unfold level, chosen_level. repeat split; now intros; subst.
Qed.

(** X13: an absent [--cwd], an empty one and the default directory written
    out are the same request. *)
Theorem main_default_working_directory (ctx : Ctx)
    (distributed debug quiet verbose : bool) (s : State (World E)) :
  main E ctx None distributed debug quiet verbose s
  = main E ctx (Some (cuckoocwd_DEFAULT E)) distributed debug quiet verbose s
  /\ main E ctx (Some EmptyString) distributed debug quiet verbose s
     = main E ctx None distributed debug quiet verbose s.
Proof.
  split.
  - rewrite !main_cases. simpl.
    now destruct (nonempty (cuckoocwd_DEFAULT E)).
  - now rewrite !main_cases.
Qed.

(** X14: [main] ends in one of two ways.  It returns, and then the context
    holds the working directory, the subcommand as click gave it, and the
    log level -- except for [createcwd] on a missing directory, where the
    level is left as it was.  Or it exits with status 1 after printing an
    error line; no other exception leaves it. *)
Theorem main_returns_or_exits (ctx : Ctx) (cwd : option string)
    (distributed debug quiet verbose : bool) (s : State (World E)) :
  let run := main E ctx cwd distributed debug quiet verbose in
  let dir := chosen_cwd E cwd in
  let level := chosen_level (VERBOSE E) debug quiet verbose in
  match fst (run s) with
  | Normal parent =>
      cwd_path parent = Some dir
      /\ invoked_subcommand parent = invoked_subcommand ctx
      /\ (loglevel parent = Some level
          \/ (cuckoocwd_exists E (world s) dir = false
              /\ opt_eqb (invoked_subcommand ctx) "createcwd" = true
              /\ loglevel parent = loglevel ctx))
  | Raised e =>
      e = SystemExit 1 /\ exists msg, In (EvPrintError msg) (emitted run s)
  end.
Proof.
  intros run dir level.
  pose proof (main_cases ctx cwd distributed debug quiet verbose s) as Hrun.
  cbv zeta in Hrun. fold run dir level in Hrun.
  destruct (cuckoocwd_exists E (world s) dir) eqn:Hexists; simpl in Hrun.
  - destruct (cuckoocwd_set E dir (world s)) as [[msg|] w1].
    + rewrite (emitted_eq _ _ _ _ _ _ Hrun), Hrun. simpl.
      split; [reflexivity|]. eexists. right. right. now left.
    + destruct (truthy_str (invoked_subcommand ctx)); simpl in Hrun.
      * rewrite Hrun. simpl.
        split; [reflexivity|split; [reflexivity|now left]].
      * destruct (os_path_exists E w1 (Paths_monitor E w1)); simpl in Hrun.
        -- rewrite (emitted_eq _ _ _ _ _ _ Hrun), Hrun. simpl.
           destruct (run_failure _) as [msg|]; simpl.
           ++ split; [reflexivity|]. eexists. do 4 right. now left.
           ++ split; [reflexivity|split; [reflexivity|now left]].
        -- rewrite (emitted_eq _ _ _ _ _ _ Hrun), Hrun. simpl.
           split; [reflexivity|]. eexists. do 3 right. now left.
  - destruct (opt_eqb (invoked_subcommand ctx) "createcwd") eqn:Hcreate.
    + rewrite Hrun. simpl.
      split; [reflexivity|split; [reflexivity|right; auto]].
    + rewrite (emitted_eq _ _ _ _ _ _ Hrun), Hrun. simpl.
      split; [reflexivity|]. eexists. right. now left.
Qed.

(** ** Further properties of [createcwd] *)

(** [create_cwd] on a path that is not a directory. *)
Lemma create_cwd_fresh_cases (path : string) (s : State (World E)) :
  create_cwd_fresh E path s
  = match cuckoocwd_create E path (world s) with
    | (Some msg, w1) =>
        (Raised (Unhandled msg),
         mkState w1 (registry s) (trace s ++ [EvCwdCreate path]))
    | (None, w1) =>
        match cuckoocwd_set E path w1 with
        | (Some msg, w2) =>
            (Raised (InvalidCWDError msg),
             mkState w2 (registry s)
               (trace s ++ [EvCwdCreate path; EvCwdSet path]))
        | (None, w2) =>
            match create_configurations E w2 with
            | (Some msg, w3) =>
                (Raised (SystemExit 1),
                 mkState w3 (registry s)
                   (trace s ++ [EvCwdCreate path; EvCwdSet path;
                                EvCreateConfigurations;
                                EvPrintError
                                  ("Failure during configuration generation: "
                                   ++ msg)]))
            | (None, w3) =>
                (Normal tt,
                 mkState w3 (registry s)
                   (trace s ++ [EvCwdCreate path; EvCwdSet path;
                                EvCreateConfigurations;
                                EvPrintInfo ("Created Cuckoo CWD at: " ++ path)]))
            end
        end
    end.
Proof.
  unfold create_cwd_fresh. step.
  destruct (cuckoocwd_create E path (world s)) as [[msg|] w1]; simpl;
    [reflexivity|].
  destruct (cuckoocwd_set E path w1) as [[msg|] w2]; simpl;
    [now flatten|].
  destruct (create_configurations E w2) as [[msg|] w3]; step; now flatten.
Qed.

(** [create_cwd] on an existing directory with a repair flag. *)
Lemma create_cwd_repair_cases (parent : Ctx) (path : string)
    (update_directories regen_configs : bool) (s : State (World E)) :
  cwd_path parent = Some path ->
  os_path_isdir E (world s) path = true ->
  regen_configs || update_directories = true ->
  create_cwd E parent update_directories regen_configs s
  = if negb (cuckoocwd_is_valid E (world s) path) then
      (Raised (SystemExit 1),
       mkState (world s) (registry s)
         (trace s ++ [EvIsDir path; EvCwdIsValid path;
                      EvPrintError ("Path " ++ path
                                    ++ " is not a valid Cuckoo CWD. "
                                    ++ "Cannot regenerate configurations.")]))
    else if regen_configs then
      match create_configurations E (world s) with
      | (Some msg, w1) =>
          (Raised (SystemExit 1),
           mkState w1 (registry s)
             (trace s ++ [EvIsDir path; EvCwdIsValid path;
                          EvCreateConfigurations;
                          EvPrintError
                            ("Failure during configuration generation: "
                             ++ msg)]))
      | (None, w1) =>
          (Normal tt,
           mkState w1 (registry s)
             (trace s ++ [EvIsDir path; EvCwdIsValid path;
                          EvCreateConfigurations;
                          EvPrintInfo "Re-created missing configuration files"]))
      end
    else
      match cuckoocwd_update_missing E (world s) with
      | (Some msg, w1) =>
          (Raised (SystemExit 1),
           mkState w1 (registry s)
             (trace s ++ [EvIsDir path; EvCwdIsValid path; EvCwdUpdateMissing;
                          EvPrintError ("Failed during directory updating: "
                                        ++ msg)]))
      | (None, w1) =>
          (Normal tt,
           mkState w1 (registry s)
             (trace s ++ [EvIsDir path; EvCwdIsValid path; EvCwdUpdateMissing;
                          EvPrintInfo "Created missing directories"]))
      end.
Proof.
  intros Hpath Hdir Hflag. unfold create_cwd, attribute. rewrite Hpath.
  step. rewrite Hdir. simpl.
  destruct regen_configs; simpl in *.
  - destruct (cuckoocwd_is_valid E (world s) path); step; [|now flatten].
    destruct (create_configurations E (world s)) as [[msg|] w1]; step;
      now flatten.
  - rewrite Hflag. simpl.
    destruct (cuckoocwd_is_valid E (world s) path); step; [|now flatten].
    destruct (cuckoocwd_update_missing E (world s)) as [[msg|] w1]; step;
      now flatten.
Qed.

(** X15: a repair of a directory that is not a valid working directory is
    refused before anything is written: with [--regen-configs] or
    [--update-directories] on such a directory [createcwd] prints that the
    path is not a valid Cuckoo CWD and exits with status 1, having asked
    two questions and called nothing that writes. *)
Theorem createcwd_repairs_no_invalid_directory (parent : Ctx) (path : string)
    (update_directories regen_configs : bool) (s : State (World E)) :
  cwd_path parent = Some path ->
  os_path_isdir E (world s) path = true ->
  regen_configs || update_directories = true ->
  cuckoocwd_is_valid E (world s) path = false ->
  create_cwd E parent update_directories regen_configs s
  = (Raised (SystemExit 1),
     mkState (world s) (registry s)
       (trace s ++ [EvIsDir path; EvCwdIsValid path;
                    EvPrintError ("Path " ++ path
                                  ++ " is not a valid Cuckoo CWD. "
                                  ++ "Cannot regenerate configurations.")])).
Proof.
  intros Hpath Hdir Hflag Hvalid.
  rewrite (create_cwd_repair_cases _ _ _ _ _ Hpath Hdir Hflag).
  now rewrite Hvalid.
Qed.

(** X16: [--regen-configs] wins over [--update-directories]: on a valid
    working directory the command with both flags does what it does with
    [--regen-configs] alone -- it calls [create_configurations] and never
    [update_missing] -- and reports the re-creation, or exits with status 1
    if the call raised [StartupError]. *)
Theorem createcwd_regen_configs_wins (parent : Ctx) (path : string)
    (update_directories : bool) (s : State (World E)) :
  cwd_path parent = Some path ->
  os_path_isdir E (world s) path = true ->
  cuckoocwd_is_valid E (world s) path = true ->
  let run := create_cwd E parent update_directories true in
  run s = create_cwd E parent false true s
  /\ ~ In EvCwdUpdateMissing (emitted run s)
  /\ In EvCreateConfigurations (emitted run s)
  /\ match fst (create_configurations E (world s)) with
     | None =>
         fst (run s) = Normal tt
         /\ In (EvPrintInfo "Re-created missing configuration files")
               (emitted run s)
     | Some msg =>
         fst (run s) = Raised (SystemExit 1)
         /\ In (EvPrintError ("Failure during configuration generation: "
                              ++ msg)) (emitted run s)
     end.
Proof.
  intros Hpath Hdir Hvalid run.
  assert (Hrun := create_cwd_repair_cases parent path update_directories true s
                    Hpath Hdir eq_refl).
  assert (Hrun' := create_cwd_repair_cases parent path false true s
                     Hpath Hdir eq_refl).
  rewrite Hvalid in Hrun, Hrun'. simpl in Hrun, Hrun'. fold run in Hrun.
  split; [now rewrite Hrun, Hrun'|].
  destruct (create_configurations E (world s)) as [[msg|] w1];
    rewrite (emitted_eq _ _ _ _ _ _ Hrun), Hrun; simpl.
  - split; [intros [H|[H|[H|[H|[]]]]]; discriminate|].
    split; [now right; right; left|].
    split; [reflexivity|]. do 3 right. now left.
  - split; [intros [H|[H|[H|[H|[]]]]]; discriminate|].
    split; [now right; right; left|].
    split; [reflexivity|]. do 3 right. now left.
Qed.

(** X17: on a path that is not yet a directory the repair flags mean
    nothing: whatever flags are given, [createcwd] creates the directory,
    then sets it as current, then generates the configurations -- each step
    only if the one before went through.  An [InvalidCWDError] of
    [cuckoocwd.set] at this point is not turned into an exit: it leaves the
    command as the exception it is, and no configuration is generated. *)
Theorem createcwd_creates_then_sets_then_configures (parent : Ctx)
    (path : string) (update_directories regen_configs : bool)
    (s : State (World E)) :
  cwd_path parent = Some path ->
  os_path_isdir E (world s) path = false ->
  let run := create_cwd E parent update_directories regen_configs in
  run s = create_cwd E parent false false s
  /\ (forall w1,
        cuckoocwd_create E path (world s) = (None, w1) ->
        match cuckoocwd_set E path w1 with
        | (Some msg, w2) =>
            run s = (Raised (InvalidCWDError msg),
                     mkState w2 (registry s)
                       (trace s ++ [EvIsDir path; EvCwdCreate path;
                                    EvCwdSet path]))
        | (None, w2) =>
            exists o w3 line,
              run s = (o, mkState w3 (registry s)
                            (trace s ++ [EvIsDir path; EvCwdCreate path;
                                         EvCwdSet path; EvCreateConfigurations;
                                         line]))
              /\ match fst (create_configurations E w2) with
                 | None =>
                     o = Normal tt
                     /\ line = EvPrintInfo ("Created Cuckoo CWD at: " ++ path)
                 | Some msg =>
                     o = Raised (SystemExit 1)
                     /\ line = EvPrintError
                                 ("Failure during configuration generation: "
                                  ++ msg)
                 end
        end).
Proof.
  intros Hpath Hdir run.
  assert (Hrun : forall u r,
             create_cwd E parent u r s
             = create_cwd_fresh E path
                 (mkState (world s) (registry s) (trace s ++ [EvIsDir path]))).
  { intros u r. unfold create_cwd, attribute. rewrite Hpath.
    unfold bind at 1. unfold ret at 1. unfold bind at 1. unfold query at 1.
    cbn [world registry trace]. now rewrite Hdir. }
  split; [unfold run; now rewrite !Hrun|].
  intros w1 Hcreate. unfold run. rewrite Hrun, create_cwd_fresh_cases.
  cbn [world registry trace]. rewrite Hcreate.
  destruct (cuckoocwd_set E path w1) as [[msg|] w2]; [now flatten|].
  destruct (create_configurations E w2) as [[msg|] w3]; simpl;
    do 3 eexists; (split; [flatten; reflexivity|]); split; reflexivity.
Qed.

Lemma create_cwd_on_directory (parent : Ctx) (path : string)
    (update_directories regen_configs : bool) (s : State (World E)) :
  cwd_path parent = Some path ->
  os_path_isdir E (world s) path = true ->
  exists o w evs,
    create_cwd E parent update_directories regen_configs s
    = (o, mkState w (registry s) (trace s ++ evs))
    /\ filter is_create_or_set evs = []
    /\ length (filter is_cwd_write evs) <= 1
    /\ (o = Normal tt \/ o = Raised (SystemExit 1)).
Proof.
  intros Hpath Hdir.
  destruct (regen_configs || update_directories) eqn:Hflag.
  - rewrite (create_cwd_repair_cases _ _ _ _ _ Hpath Hdir Hflag).
    destruct (cuckoocwd_is_valid E (world s) path); simpl.
    + destruct regen_configs.
      * destruct (create_configurations E (world s)) as [[msg|] w1];
          do 3 eexists; (split; [reflexivity|]); simpl; auto.
      * destruct (cuckoocwd_update_missing E (world s)) as [[msg|] w1];
          do 3 eexists; (split; [reflexivity|]); simpl; auto.
    + do 3 eexists. split; [reflexivity|]. simpl. auto.
  - apply orb_false_iff in Hflag. destruct Hflag as [-> ->].
    exists (Raised (SystemExit 1)), (world s),
      [EvIsDir path; EvPrintError ("Path " ++ path ++ " already exists.")].
    split; [|simpl; auto].
    unfold create_cwd, attribute. rewrite Hpath.
    step. rewrite Hdir. simpl. now flatten.
Qed.

(** X18: [createcwd] never creates over an existing directory: whatever the
    flags and whatever the collaborators answer, on a path that is a
    directory it calls neither [cuckoocwd.create] nor [cuckoocwd.set], makes
    at most one call that writes, and ends normally or by an exit with
    status 1. *)
Theorem createcwd_never_creates_over_a_directory (parent : Ctx) (path : string)
    (update_directories regen_configs : bool) (s : State (World E)) :
  cwd_path parent = Some path ->
  os_path_isdir E (world s) path = true ->
  let run := create_cwd E parent update_directories regen_configs in
  filter is_create_or_set (emitted run s) = []
  /\ length (filter is_cwd_write (emitted run s)) <= 1
  /\ (fst (run s) = Normal tt \/ fst (run s) = Raised (SystemExit 1)).
Proof.
  intros Hpath Hdir run.
  destruct (create_cwd_on_directory parent path update_directories
              regen_configs s Hpath Hdir)
    as (o & w & evs & Hrun & Hnone & Hone & Hout).
  fold run in Hrun. rewrite (emitted_eq _ _ _ _ _ _ Hrun), Hrun. auto.
Qed.

Lemma create_cwd_no_attribute_error (parent : Ctx) (path : string)
    (update_directories regen_configs : bool) (s : State (World E)) :
  cwd_path parent = Some path ->
  forall name,
    fst (create_cwd E parent update_directories regen_configs s)
    <> Raised (AttributeError name).
Proof.
  intros Hpath name.
  destruct (os_path_isdir E (world s) path) eqn:Hdir.
  - destruct (create_cwd_on_directory parent path update_directories
                regen_configs s Hpath Hdir)
      as (o & w & evs & Hrun & _ & _ & [->| ->]);
      rewrite Hrun; discriminate.
  - assert (Hrun : create_cwd E parent update_directories regen_configs s
                   = create_cwd_fresh E path
                       (mkState (world s) (registry s)
                                (trace s ++ [EvIsDir path]))).
    { unfold create_cwd, attribute. rewrite Hpath.
      unfold bind at 1. unfold ret at 1. unfold bind at 1. unfold query at 1.
      cbn [world registry trace]. now rewrite Hdir. }
    rewrite Hrun, create_cwd_fresh_cases. cbn [world registry trace].
    destruct (cuckoocwd_create E path (world s)) as [[msg|] w1];
      [discriminate|].
    destruct (cuckoocwd_set E path w1) as [[msg|] w2]; [discriminate|].
    destruct (create_configurations E w2) as [[msg|] w3]; discriminate.
Qed.

(** ** [main] with its subcommands *)

(** [importmode], case by case. *)
Lemma importmode_cases (ctx parent : Ctx) (level : Z) (s : State (World E)) :
  truthy_str (invoked_subcommand ctx) = false ->
  loglevel parent = Some level ->
  let r := start_importmode E level (world s) in
  importmode E ctx parent s
  = (match run_failure r with
     | None => Normal tt
     | Some _ => Raised (SystemExit 1)
     end,
     mkState (run_world r) []
       (trace s
        ++ EvStart ImportMode level
        :: match run_failure r with
           | None => []
           | Some msg =>
               [EvPrintError ("Failure during import mode startup: " ++ msg)]
           end
        ++ action_events
             (map fst (sort_by_order
                         (registry s
                          ++ (StopMsg "Stopping import mode..", 1%Z)
                          :: run_registered r))))).
Proof.
  intros Hsub Hlevel r.
  unfold importmode. rewrite Hsub, Hlevel.
  pose proof (guarded_start_run E ImportMode (start_importmode E) level
                "Stopping import mode.." "Failure during import mode startup: "
                s) as Hg.
  cbv zeta in Hg. fold r in Hg. simpl. exact Hg.
Qed.

Lemma filter_start_action_events l : filter is_start (action_events l) = [].
Proof.
  apply filter_none. intros e He.
  unfold action_events in He. apply in_flat_map in He.
  destruct He as (a & _ & He).
  destruct a; simpl in He;
    repeat (destruct He as [<-|He]; [reflexivity|]); contradiction.
Qed.

Lemma filter_query_action_events l :
  filter is_disk_query (action_events l) = [].
Proof.
  apply filter_none. intros e He.
  unfold action_events in He. apply in_flat_map in He.
  destruct He as (a & _ & He).
  destruct a; simpl in He;
    repeat (destruct He as [<-|He]; [reflexivity|]); contradiction.
Qed.

(** X19: [cuckoo importmode] as click runs it -- [main], then the
    subcommand on the context [main] prepared.  The import controller is
    started exactly when the working directory exists and is accepted, and
    then once, at the log level of the flags given to [cuckoo]; the
    monitor binaries are never asked for, [ctx.parent.loglevel] is always
    there when [importmode] reads it, and the command ends normally or by
    an exit with status 1. *)
Theorem cli_importmode_starts_at_the_chosen_level (cwd : option string)
    (distributed debug quiet verbose : bool) (s : State (World E)) :
  let run := cli_importmode E cwd distributed debug quiet verbose in
  let dir := chosen_cwd E cwd in
  let level := chosen_level (VERBOSE E) debug quiet verbose in
  let accepted :=
    cuckoocwd_exists E (world s) dir
    && negb (is_some (fst (cuckoocwd_set E dir (world s)))) in
  filter is_start (emitted run s)
  = (if accepted then [EvStart ImportMode level] else [])
  /\ filter is_disk_query (emitted run s) = []
  /\ (fst (run s) = Normal tt \/ fst (run s) = Raised (SystemExit 1)).
Proof.
  intros run dir level accepted.
  pose proof (main_cases (mkCtx None None (Some "importmode")) cwd
                distributed debug quiet verbose s) as Hmain.
  cbv zeta in Hmain. fold dir level in Hmain. simpl in Hmain.
  assert (Hrun : exists o w g evs,
             run s = (o, mkState w g (trace s ++ evs))
             /\ filter is_start evs
                = (if accepted then [EvStart ImportMode level] else [])
             /\ filter is_disk_query evs = []
             /\ (o = Normal tt \/ o = Raised (SystemExit 1))).
  { unfold run, cli_importmode, bind. rewrite Hmain. unfold accepted.
    destruct (cuckoocwd_exists E (world s) dir); simpl.
    - destruct (cuckoocwd_set E dir (world s)) as [[msg|] w1]; simpl.
      + do 4 eexists. split; [reflexivity|]. simpl. auto.
      + rewrite (importmode_cases _ _ level) by reflexivity.
        cbn [world registry trace].
        do 4 eexists. split; [flatten; reflexivity|].
        cbn [filter is_start is_disk_query].
        rewrite !filter_app, filter_start_action_events,
          filter_query_action_events.
        destruct (run_failure _); simpl; auto.
    - do 4 eexists. split; [reflexivity|]. simpl. auto. }
  destruct Hrun as (o & w & g & evs & Hrun & Hstart & Hquery & Hout).
  rewrite (emitted_eq _ _ _ _ _ _ Hrun), Hrun. auto.
Qed.

(** X20: [cuckoo createcwd] on a path where nothing exists yet, as click
    runs it: [main] only asks whether the working directory exists -- it
    does not try to set it as current -- and [create_cwd] then creates the
    directory, sets it, and generates the configurations, in this order,
    whatever flags were given to either. *)
Theorem cli_createcwd_on_a_fresh_path (cwd : option string)
    (distributed debug quiet verbose update_directories regen_configs : bool)
    (s : State (World E)) (w1 w2 w3 : World E) :
  let dir := chosen_cwd E cwd in
  cuckoocwd_exists E (world s) dir = false ->
  os_path_isdir E (world s) dir = false ->
  cuckoocwd_create E dir (world s) = (None, w1) ->
  cuckoocwd_set E dir w1 = (None, w2) ->
  create_configurations E w2 = (None, w3) ->
  cli_createcwd E cwd distributed debug quiet verbose update_directories
                regen_configs s
  = (Normal tt,
     mkState w3 (registry s)
       (trace s ++ [EvCwdExists dir; EvIsDir dir; EvCwdCreate dir;
                    EvCwdSet dir; EvCreateConfigurations;
                    EvPrintInfo ("Created Cuckoo CWD at: " ++ dir)])).
Proof.
  intros dir Hexists Hdir Hcreate Hset Hconf.
  unfold cli_createcwd, bind. rewrite main_cases. fold dir.
  rewrite Hexists. simpl.
  unfold create_cwd, attribute. simpl.
  unfold bind at 1. unfold ret at 1. unfold bind at 1. unfold query at 1.
  cbn [world registry trace]. rewrite Hdir. simpl.
  rewrite create_cwd_fresh_cases. cbn [world registry trace].
  rewrite Hcreate, Hset, Hconf. now flatten.
Qed.

(** X21: [cuckoo createcwd] cannot repair a directory that
    [cuckoocwd.set] rejects: when the directory exists and [main] gets
    [InvalidCWDError] from [cuckoocwd.set], the command exits with status 1
    on "Invalid Cuckoo working directory: ..." before [create_cwd] runs, so
    neither [--regen-configs] nor [--update-directories] is acted on. *)
Theorem cli_createcwd_stops_at_a_rejected_directory (cwd : option string)
    (distributed debug quiet verbose update_directories regen_configs : bool)
    (s : State (World E)) (w1 : World E) (msg : string) :
  let dir := chosen_cwd E cwd in
  cuckoocwd_exists E (world s) dir = true ->
  cuckoocwd_set E dir (world s) = (Some msg, w1) ->
  cli_createcwd E cwd distributed debug quiet verbose update_directories
                regen_configs s
  = (Raised (SystemExit 1),
     mkState w1 (registry s)
       (trace s ++ [EvCwdExists dir; EvCwdSet dir;
                    EvPrintError ("Invalid Cuckoo working directory: "
                                  ++ msg)])).
Proof.
  intros dir Hexists Hset.
  unfold cli_createcwd, bind. rewrite main_cases. fold dir.
  now rewrite Hexists, Hset.
Qed.

(** X22: under [main], [create_cwd] always finds [ctx.parent.cwd_path]:
    [cuckoo createcwd] never fails on a missing context attribute, whatever
    the options and the state of the disk. *)
Theorem cli_createcwd_finds_its_context (cwd : option string)
    (distributed debug quiet verbose update_directories regen_configs : bool)
    (s : State (World E)) (name : string) :
  fst (cli_createcwd E cwd distributed debug quiet verbose update_directories
                     regen_configs s)
  <> Raised (AttributeError name).
Proof.
  unfold cli_createcwd, bind.
  pose proof (main_cases (mkCtx None None (Some "createcwd")) cwd
                distributed debug quiet verbose s) as Hmain.
  cbv zeta in Hmain. simpl in Hmain. rewrite Hmain.
  destruct (cuckoocwd_exists E (world s) (chosen_cwd E cwd)); simpl.
  - destruct (cuckoocwd_set E (chosen_cwd E cwd) (world s)) as [[msg|] w1];
      simpl; [discriminate|].
    now apply (create_cwd_no_attribute_error _ (chosen_cwd E cwd)).
  - now apply (create_cwd_no_attribute_error _ (chosen_cwd E cwd)).
Qed.

End MoreProperties.

(** ** [getmonitor] and [api token] *)

Section ToolProperties.

Variable T : Tools.

Lemma called_eq {A} (m : M (Logged (Store T)) A) s o i g t cs :
  m s = (o, mkState (mkLogged i (calls (world s) ++ cs)) g t) ->
  called T m s = cs.
Proof.
  intros H. unfold called. rewrite H. simpl. apply skipn_length_app.
Qed.

Ltac tool_step :=
  unfold bind, tool, peek, log, ret, raise, print_info, print_error,
         exit_error; simpl.

(** X23: [getmonitor] unpacks only a zip file that is there: if
    [os.path.isfile] says no, it prints "Zip file does not exist: ..." and
    exits with status 1 without calling the unpacker; otherwise it calls the
    unpacker once, with the zip path and the root of the working
    directory. *)
Theorem getmonitor_needs_the_zip_file (zip_path : string)
    (s : State (Logged (Store T))) :
  let run := get_monitor T zip_path in
  if os_path_isfile T (inner (world s)) zip_path
  then called T run s
       = [CallIsFile zip_path;
          CallUnpack zip_path (cuckoocwd_root T (inner (world s)))]
       /\ emitted run s = []
  else called T run s = [CallIsFile zip_path]
       /\ fst (run s) = Raised (SystemExit 1)
       /\ emitted run s
          = [EvPrintError ("Zip file does not exist: " ++ zip_path)].
Proof.
  intros run. destruct s as [[i cs] g t]. simpl.
  destruct (os_path_isfile T i zip_path) eqn:Hfile.
  - assert (Hrun : exists o i',
               run (mkState (mkLogged i cs) g t)
               = (o, mkState
                       (mkLogged i' (cs ++ [CallIsFile zip_path;
                                            CallUnpack zip_path
                                              (cuckoocwd_root T i)]))
                       g (t ++ []))).
    { unfold run, get_monitor. tool_step. rewrite Hfile. simpl.
      destruct (unpack_monitor_components T zip_path (cuckoocwd_root T i) i)
        as [[msg|] i']; simpl; do 2 eexists;
        rewrite <- app_assoc, app_nil_r; reflexivity. }
    destruct Hrun as (o & i' & Hrun). split.
    + eapply (called_eq run (mkState (mkLogged i cs) g t)). exact Hrun.
    + eapply (emitted_eq run (mkState (mkLogged i cs) g t)). exact Hrun.
  - assert (Hrun : run (mkState (mkLogged i cs) g t)
                   = (Raised (SystemExit 1),
                      mkState (mkLogged i (cs ++ [CallIsFile zip_path])) g
                        (t ++ [EvPrintError ("Zip file does not exist: "
                                             ++ zip_path)]))).
    { unfold run, get_monitor. tool_step. now rewrite Hfile. }
    split; [|split].
    + eapply (called_eq run (mkState (mkLogged i cs) g t)). exact Hrun.
    + now rewrite Hrun.
    + eapply (emitted_eq run (mkState (mkLogged i cs) g t)). exact Hrun.
Qed.

Lemma apitoken_called (list_ : bool) (create : option string) (admin : bool)
    (delete : option Z) (clear : bool) (s : State (Logged (Store T))) :
  called T (apitoken T list_ create admin delete clear) s
  = apitoken_calls T list_ create admin delete clear (inner (world s)).
Proof.
  destruct s as [[i cs] g t].
  unfold called, apitoken, apitoken_calls. tool_step.
  destruct list_; simpl.
  { rewrite <- app_assoc. apply skipn_length_app. }
  destruct (truthy_str create); simpl.
  { destruct (create_key T _ admin (load_app T i)) as [[[key n]|e] i'];
      simpl; rewrite <- app_assoc; apply skipn_length_app. }
  destruct (truthy_int delete); simpl.
  { destruct (delete_key T _ (load_app T i)) as [[|] i'];
      simpl; rewrite <- app_assoc; apply skipn_length_app. }
  destruct clear; simpl.
  { destruct (click_confirm T _ (load_app T i)) as [[|] i']; simpl.
    - destruct (delete_all T i') as [n i'']. simpl.
      rewrite <- !app_assoc. apply skipn_length_app.
    - rewrite <- app_assoc. apply skipn_length_app. }
  rewrite <- app_assoc. apply skipn_length_app.
Qed.

(** X24: [--list] wins over every other option of [api token]: with it the
    command loads the application and prints the keys, and neither creates
    nor deletes anything, whatever else is on the command line. *)
Theorem apitoken_list_wins (create : option string) (admin : bool)
    (delete : option Z) (clear : bool) (s : State (Logged (Store T))) :
  let run := apitoken T true create admin delete clear in
  called T run s = [CallLoadApp; CallPrintApiKeys]
  /\ fst (run s) = Normal tt
  /\ emitted run s = [].
Proof.
  simpl. split; [now rewrite apitoken_called|].
  destruct s as [[i cs] g t]. unfold apitoken, emitted. tool_step.
  split; [reflexivity|].
  rewrite <- (app_nil_r t) at 2. apply skipn_length_app.
Qed.

(** X25: [api token] tests its options by their truth value, so
    [--create ""] and [--delete 0] count as not given: the command does what
    it does without them, and [delete_key] is never called for the token
    with ID 0. *)
Theorem apitoken_ignores_empty_owner_and_id_zero (list_ : bool)
    (create : option string) (admin : bool) (delete : option Z) (clear : bool)
    (s : State (Logged (Store T))) :
  apitoken T list_ (Some EmptyString) admin delete clear s
  = apitoken T list_ None admin delete clear s
  /\ apitoken T list_ create admin (Some 0%Z) clear s
     = apitoken T list_ create admin None clear s
  /\ ~ In (CallDeleteKey 0)
         (called T (apitoken T list_ create admin delete clear) s).
Proof.
  split; [reflexivity|]. split; [reflexivity|].
  rewrite apitoken_called. unfold apitoken_calls.
  intros [H|H]; [discriminate|].
  destruct list_; [destruct H as [H|[]]; discriminate|].
  destruct (truthy_str create); [destruct H as [H|[]]; discriminate|].
  destruct delete as [z|]; simpl in H.
  - destruct (z =? 0)%Z eqn:Hz; simpl in H.
    + destruct clear; simpl in H.
      * destruct H as [H|H]; [discriminate|].
        destruct (fst (click_confirm T _ _)); simpl in H;
          [destruct H as [H|[]]; discriminate|contradiction].
      * destruct H as [H|[]]; discriminate.
    + destruct H as [H|[]]. inversion H. subst. discriminate.
  - destruct clear; simpl in H.
    + destruct H as [H|H]; [discriminate|].
      destruct (fst (click_confirm T _ _)); simpl in H;
        [destruct H as [H|[]]; discriminate|contradiction].
    + destruct H as [H|[]]; discriminate.
Qed.

(** X26: all tokens are deleted only on request and after confirmation:
    [delete_all] is called exactly when [--clear] is given, no option before
    it counts ([--list], a non-empty [--create], a non-zero [--delete]), and
    the prompt "Delete all API tokens?" was answered with yes. *)
Theorem apitoken_clears_only_when_confirmed (list_ : bool)
    (create : option string) (admin : bool) (delete : option Z) (clear : bool)
    (s : State (Logged (Store T))) :
  In CallDeleteAll (called T (apitoken T list_ create admin delete clear) s)
  <-> list_ = false /\ truthy_str create = false
      /\ truthy_int delete = false /\ clear = true
      /\ fst (click_confirm T "Delete all API tokens?"
                            (load_app T (inner (world s)))) = true.
Proof.
  rewrite apitoken_called. unfold apitoken_calls. split.
  - intros [H|H]; [discriminate|].
    destruct list_; [destruct H as [H|[]]; discriminate|].
    destruct (truthy_str create); [destruct H as [H|[]]; discriminate|].
    destruct (truthy_int delete); [destruct H as [H|[]]; discriminate|].
    destruct clear; [|destruct H as [H|[]]; discriminate].
    destruct H as [H|H]; [discriminate|].
    destruct (fst (click_confirm T _ _)); [auto 6|contradiction].
  - intros (-> & -> & -> & -> & ->). right. right. now left.
Qed.

End ToolProperties.

(** ** Platform tokens, and the install script *)

Lemma partition_first_some sep t a b :
  partition_first sep t = Some (a, b) ->
  t = (a ++ String sep b)%string /\ contains sep a = false.
Proof.
  revert a b. induction t as [|c r IH]; simpl; intros a b H; [discriminate|].
  destruct (Ascii.eqb_spec c sep) as [->|Hne].
  - inversion H; subst. now split.
  - destruct (partition_first sep r) as [[a' b']|]; [|discriminate].
    inversion H; subst. destruct (IH a' b eq_refl) as [-> Ha].
    split; [reflexivity|]. simpl. rewrite Ha.
    apply Ascii.eqb_neq in Hne. now rewrite Hne.
Qed.

(** X27: a [--platform] token and the entry made of it determine each
    other: the entry's platform never contains a comma, writing the entry
    back as [platform] or [platform,os_version] gives the token, and the
    token of any entry whose platform has no comma is read as that entry --
    an empty version after a trailing comma included. *)
Theorem platform_token_round_trip (h : SettingsHelper) :
  (forall t,
      exists e,
        h_platforms (add_platform_token h t) = h_platforms h ++ [e]
        /\ platform_token e = t
        /\ contains "," (platform e) = false)
  /\ (forall e,
        contains "," (platform e) = false ->
        h_platforms (add_platform_token h (platform_token e))
        = h_platforms h ++ [e]).
Proof.
  split.
  - intros t. exists (token_platform t).
    rewrite add_platform_token_entry. simpl. unfold token_platform.
    destruct (partition_first "," t) as [[a b]|] eqn:Hp; simpl.
    + apply partition_first_some in Hp. destruct Hp as [-> Ha]. auto.
    + split; [reflexivity|]. split; [reflexivity|].
      clear h. induction t as [|c r IH]; simpl in *; auto.
      destruct (Ascii.eqb c ","); [discriminate|].
      destruct (partition_first "," r) as [[a b]|]; [discriminate|].
      now apply IH.
  - intros [p [v|]] Hp; simpl in *;
      rewrite add_platform_token_entry; unfold token_platform, platform_token;
      simpl.
    + change (p ++ "," ++ v)%string with (p ++ String "," v)%string.
      now rewrite (partition_first_found _ _ _ Hp).
    + now rewrite (partition_first_absent _ _ Hp).
Qed.

Lemma lower_char_cases (c : ascii) :
  (lower_char c = "l" -> c = "l" \/ c = "L")%char
  /\ (lower_char c = "i" -> c = "i" \/ c = "I")%char
  /\ (lower_char c = "n" -> c = "n" \/ c = "N")%char
  /\ (lower_char c = "u" -> c = "u" \/ c = "U")%char
  /\ (lower_char c = "x" -> c = "x" \/ c = "X")%char.
Proof.
  destruct c as [[] [] [] [] [] [] [] []]; vm_compute;
    repeat split; intros H; try discriminate H; auto.
Qed.

Lemma lower_linux sys : lower sys = "linux" <-> linux_spelling sys.
Proof.
  split.
  - destruct sys as [|c1 [|c2 [|c3 [|c4 [|c5 [|c6 r]]]]]]; simpl;
      try discriminate.
    intros H. injection H as H1 H2 H3 H4 H5.
    destruct (lower_char_cases c1) as (L1 & _).
    destruct (lower_char_cases c2) as (_ & L2 & _).
    destruct (lower_char_cases c3) as (_ & _ & L3 & _).
    destruct (lower_char_cases c4) as (_ & _ & _ & L4 & _).
    destruct (lower_char_cases c5) as (_ & _ & _ & _ & L5).
    auto 10.
  - destruct sys as [|c1 [|c2 [|c3 [|c4 [|c5 [|c6 r]]]]]]; simpl;
      try contradiction.
    intros ([-> | ->] & [-> | ->] & [-> | ->] & [-> | ->] & [-> | ->]);
      reflexivity.
Qed.

(** X28: the install script calls [setuptools.setup] exactly when the
    interpreter's version string does not start with "2",
    [platform.system()] spells "linux" in any mix of capitals and small
    letters, and both computed arguments -- the package list and the text of
    README.rst -- could be evaluated; the call then gets these two values.
    The Python check comes first, so under Python 2 the script stops on the
    Python message on every system; on a system that is not Linux it stops
    before README.rst is opened; and when README.rst cannot be read the
    script ends in the exception of [open], without the call. *)
Theorem setup_script_guards (sys_version platform_system : string)
    (find_namespace_packages : list string + string)
    (readme : string + string) :
  (forall packages long_description,
      setup_script sys_version platform_system find_namespace_packages readme
      = CallsSetup packages long_description
      <-> (exists c r, sys_version = String c r /\ c <> "2"%char)
          /\ linux_spelling platform_system
          /\ find_namespace_packages = inl packages
          /\ readme = inl long_description)
  /\ (forall r,
        setup_script (String "2" r) platform_system find_namespace_packages
                     readme
        = SysExit ("The latest version of Cuckoo is Python >=3.6 only. "
                   ++ "Any Cuckoo version earlier than 3.0.0 supports Python 2."))
  /\ (forall c r,
        c <> "2"%char -> ~ linux_spelling platform_system ->
        setup_script (String c r) platform_system find_namespace_packages
                     readme
        = SysExit "Cuckoo 3 only supports Linux hosts")
  /\ (forall c r packages exc,
        c <> "2"%char -> linux_spelling platform_system ->
        setup_script (String c r) platform_system (inl packages) (inr exc)
        = ArgumentRaises exc).
Proof.
  split; [|split; [reflexivity|split]].
  - intros packages long_description.
    unfold setup_script. destruct sys_version as [|c r].
    + split; [discriminate|]. now intros [(c & r & H & _) _].
    + destruct (Ascii.eqb_spec c "2") as [->|Hne].
      * split; [discriminate|].
        intros [(c & r' & H & Hc) _]. inversion H; subst. contradiction.
      * destruct (String.eqb_spec (lower platform_system) "linux") as [Hl|Hl];
          simpl.
        -- apply lower_linux in Hl.
           destruct find_namespace_packages as [p|e];
             [|split; [discriminate|intros (_ & _ & H & _); discriminate]].
           destruct readme as [d|e];
             [|split; [discriminate|intros (_ & _ & _ & H); discriminate]].
           split.
           ++ intros H. inversion H; subst. repeat split; eauto.
           ++ intros (_ & _ & Hp & Hd). inversion Hp; inversion Hd; subst.
              reflexivity.
        -- split; [discriminate|]. intros (_ & Hs & _).
           apply lower_linux in Hs. contradiction.
  - intros c r Hc Hnot. unfold setup_script.
    apply Ascii.eqb_neq in Hc. rewrite Hc.
    destruct (String.eqb_spec (lower platform_system) "linux") as [Hl|Hl];
      [|reflexivity].
    apply lower_linux in Hl. contradiction.
  - intros c r packages exc Hc Hlinux. unfold setup_script.
    apply Ascii.eqb_neq in Hc. rewrite Hc.
    apply lower_linux in Hlinux. rewrite Hlinux. reflexivity.
Qed.

(** ** The further properties on the two installations *)

(** X10 at work: no working directory yet, and [createcwd] is invoked. *)
Lemma main_without_working_directory_demo :
  main Broken.env (mkCtx None None (Some "createcwd")) None
       false false false false Broken.start
  = (Normal (mkCtx (Some "/fresh") None (Some "createcwd")),
     mkState 0 [] [EvCwdExists "/fresh"]).
Proof.
  exact (main_without_working_directory Broken.env
           (mkCtx None None (Some "createcwd")) None false false false false
           Broken.start eq_refl).
Defined.

(** X12 at work: [submit] invoked with [--debug] and [--quiet]. *)
Lemma main_prepares_the_subcommand_demo :
  main Demo.env (mkCtx None None (Some "submit")) None
       false true true false Demo.start
  = (Normal (mkCtx (Some "/cwd") (Some 10%Z) (Some "submit")),
     mkState 0 [] [EvCwdExists "/cwd"; EvCwdSet "/cwd"]).
Proof.
  exact (proj1 (main_prepares_the_subcommand Demo.env
                  (mkCtx None None (Some "submit")) None false true true false
                  Demo.start 0 eq_refl eq_refl eq_refl)).
Defined.

(** X15 at work: ["/old"] is a directory but no working directory. *)
Lemma createcwd_repairs_no_invalid_directory_demo :
  create_cwd Broken.env (mkCtx (Some "/old") None (Some "createcwd"))
             false true Broken.start
  = (Raised (SystemExit 1),
     mkState 0 [] [EvIsDir "/old"; EvCwdIsValid "/old";
                   EvPrintError
                     "Path /old is not a valid Cuckoo CWD. Cannot regenerate configurations."]).
Proof.
  exact (createcwd_repairs_no_invalid_directory Broken.env
           (mkCtx (Some "/old") None (Some "createcwd")) "/old" false true
           Broken.start eq_refl eq_refl eq_refl eq_refl).
Defined.

(** X16 at work: both repair flags on the working directory. *)
Lemma createcwd_regen_configs_wins_demo :
  create_cwd Demo.env (mkCtx (Some "/cwd") None (Some "createcwd"))
             true true Demo.start
  = create_cwd Demo.env (mkCtx (Some "/cwd") None (Some "createcwd"))
               false true Demo.start.
Proof.
  exact (proj1 (createcwd_regen_configs_wins Demo.env
                  (mkCtx (Some "/cwd") None (Some "createcwd")) "/cwd" true
                  Demo.start eq_refl eq_refl eq_refl)).
Defined.

(** X17 at work: both repair flags on a path where nothing exists. *)
Lemma createcwd_creates_then_sets_then_configures_demo :
  create_cwd Broken.env (mkCtx (Some "/fresh") None (Some "createcwd"))
             true true Broken.start
  = create_cwd Broken.env (mkCtx (Some "/fresh") None (Some "createcwd"))
               false false Broken.start.
Proof.
  exact (proj1 (createcwd_creates_then_sets_then_configures Broken.env
                  (mkCtx (Some "/fresh") None (Some "createcwd")) "/fresh"
                  true true Broken.start eq_refl eq_refl)).
Defined.

(** X18 at work: [--update-directories] on the working directory. *)
Lemma createcwd_never_creates_over_a_directory_demo :
  filter is_create_or_set
    (emitted (create_cwd Demo.env (mkCtx (Some "/cwd") None (Some "createcwd"))
                         true false) Demo.start) = [].
Proof.
  exact (proj1 (createcwd_never_creates_over_a_directory Demo.env
                  (mkCtx (Some "/cwd") None (Some "createcwd")) "/cwd"
                  true false Demo.start eq_refl eq_refl)).
Defined.

(** X20 at work: [cuckoo createcwd] with the default directory missing. *)
Lemma cli_createcwd_on_a_fresh_path_demo :
  cli_createcwd Broken.env None false false false false true true Broken.start
  = (Normal tt,
     mkState 2 [] [EvCwdExists "/fresh"; EvIsDir "/fresh"; EvCwdCreate "/fresh";
                   EvCwdSet "/fresh"; EvCreateConfigurations;
                   EvPrintInfo "Created Cuckoo CWD at: /fresh"]).
Proof.
  exact (cli_createcwd_on_a_fresh_path Broken.env None false false false false
           true true Broken.start 1 1 2 eq_refl eq_refl eq_refl eq_refl eq_refl).
Defined.

(** X21 at work: [cuckoo --cwd /old createcwd --regen-configs]. *)
Lemma cli_createcwd_stops_at_a_rejected_directory_demo :
  cli_createcwd Broken.env (Some "/old") false false false false false true
                Broken.start
  = (Raised (SystemExit 1),
     mkState 0 [] [EvCwdExists "/old"; EvCwdSet "/old";
                   EvPrintError
                     "Invalid Cuckoo working directory: no marker file"]).
Proof.
  exact (cli_createcwd_stops_at_a_rejected_directory Broken.env (Some "/old")
           false false false false false true Broken.start 0 "no marker file"
           eq_refl eq_refl).
Defined.
